(** * SST frontend: opportunity query, evaluation and text extraction

    A shallow embedding of the opportunity pipeline of the SST 2.0 frontend:

    - [get_opportunities]  (app.py, and verbatim api_opportunities in
      app_render.py): filter, sort and paginate in memory;
    - [list_opportunities] (public/server.py): the same listing pushed down
      to SQLite (WHERE .. LIKE, ORDER BY, LIMIT/OFFSET and a count query);
    - [generate_evaluation_recommendations] (app.py) and its Render variant
      (app_render.py);
    - [extract_deliverables_from_description] and
      [extract_proposal_requirements_from_description] (app.py).

    A Python [str] is modelled by the sequence of its code points.  The
    fields of a record hold code points U+0000..U+00FF, one [ascii] each;
    on that range [str.lower], [str.strip], [in], [find], slicing and
    comparison are character-wise and are modelled exactly.  The text
    extraction is modelled on strings of any code points (module [Text]),
    where [str.lower] may turn one code point into several.  An opportunity
    record is a Python dict from field names to strings: a
    [gmap string string]; [opp.get(k, '')] is [get]. *)

From Stdlib Require Import ZArith Ascii String List Lia Bool.
From Stdlib Require Import Numbers.DecimalString.
From Stdlib Require Import Sorting.Sorted.
From stdpp Require Import gmap strings list.

Local Open Scope Z_scope.

(** ** Python strings *)

Module Py.

Definition chars (s : string) : list ascii := list_ascii_of_string s.
Definition str (l : list ascii) : string := string_of_list_ascii l.

(** [len(s)] *)
Definition len (s : string) : Z := Z.of_nat (length (chars s)).

(** Truthiness of a string: [if s:] holds for the non-empty strings. *)
Definition truthy (s : string) : bool :=
  match s with EmptyString => false | String _ _ => true end.

(** [c.lower()] on U+0000..U+00FF: A-Z, and the Latin-1 capitals
    U+00C0..U+00DE except the multiplication sign U+00D7, move up by 32. *)
Definition lower_char (c : ascii) : ascii :=
  let n := N_of_ascii c in
  if ((65 <=? n) && (n <=? 90) || (192 <=? n) && (n <=? 214)
      || (216 <=? n) && (n <=? 222))%N
  then ascii_of_N (n + 32) else c.

(** [s.lower()] *)
Definition lower (s : string) : string := str (map lower_char (chars s)).

(** [c.isspace()] on U+0000..U+00FF: TAB LF VT FF CR, FS GS RS US, SPACE,
    NEL (U+0085) and NBSP (U+00A0). *)
Definition isspace (c : ascii) : bool :=
  let n := N_of_ascii c in
  ((9 <=? n) && (n <=? 13) || (28 <=? n) && (n <=? 32)
   || (n =? 133) || (n =? 160))%N.

Fixpoint lstrip (l : list ascii) : list ascii :=
  match l with
  | c :: t => if isspace c then lstrip t else l
  | [] => []
  end.

(** [s.strip()] *)
Definition strip (s : string) : string :=
  str (rev (lstrip (rev (lstrip (chars s))))).

Fixpoint starts_with (needle hay : list ascii) : bool :=
  match needle, hay with
  | [], _ => true
  | _ :: _, [] => false
  | a :: n', b :: h' => if Ascii.eqb a b then starts_with n' h' else false
  end.

Fixpoint contains (needle hay : list ascii) : bool :=
  starts_with needle hay ||
  match hay with
  | [] => false
  | _ :: t => contains needle t
  end.

(** [needle in hay] *)
Definition is_in (needle hay : string) : bool :=
  contains (chars needle) (chars hay).

Fixpoint find_from (needle hay : list ascii) (i : Z) : Z :=
  if starts_with needle hay then i
  else match hay with
       | [] => -1
       | _ :: t => find_from needle t (i + 1)
       end.

(** [hay.find(needle)]: the lowest index of an occurrence, or -1. *)
Definition find (needle hay : string) : Z :=
  find_from (chars needle) (chars hay) 0.

(** Index normalisation of a slice bound against a sequence of length [n]:
    a negative bound counts from the end, and the result is clamped to
    [0..n]. *)
Definition slice_index (n i : Z) : Z :=
  if i <? 0 then Z.max 0 (i + n) else Z.min i n.

(** [l[a:b]] on any sequence. *)
Definition slice {A : Type} (l : list A) (a b : Z) : list A :=
  let n := Z.of_nat (length l) in
  let lo := slice_index n a in
  let hi := slice_index n b in
  take (Z.to_nat (hi - lo)) (drop (Z.to_nat lo) l).

(** [s[a:b]] on a string. *)
Definition substr (s : string) (a b : Z) : string := str (slice (chars s) a b).

(** [a <= b] on strings: lexicographic on code points. *)
Definition str_le (a b : string) : bool := String.leb a b.

(** [l.sort(key=.., reverse=..)] is stable, also when reversed: records are
    inserted from the right, each one in front of the first record it may
    precede, so equal keys keep their input order. *)
Section Sort.
Context {A : Type} (before : A -> A -> bool).

Fixpoint insert_sorted (x : A) (l : list A) : list A :=
  match l with
  | [] => [x]
  | y :: t => if before x y then x :: l else y :: insert_sorted x t
  end.

Fixpoint sort (l : list A) : list A :=
  match l with
  | [] => []
  | x :: t => insert_sorted x (sort t)
  end.
End Sort.

(** [s.replace('Z', r)]: every occurrence of the one character is replaced. *)
Definition replace_Z (r : string) (s : string) : string :=
  str (flat_map (fun c => if Ascii.eqb c "Z" then chars r else [c]) (chars s)).

(** [str(n)] for an integer. *)
Definition str_of_int (n : Z) : string := NilEmpty.string_of_int (Z.to_int n).

End Py.

(** ** Opportunity records *)

(** A record is a dict from field names to strings. *)
Abbreviation record := (gmap string string).

(** [opp.get(k, '')] *)
Definition get (opp : record) (k : string) : string := default "" (opp !! k).

(** ** The in-memory query engine (app.py, app_render.py) *)

Module InMemory.

(** The parsed query parameters of [get_opportunities]. *)
Record params := {
  page : Z;
  per_page : Z;
  search : string;
  agency : string;
  naics : string;
  active : string;
  sort_by : string;
  sort_order : string
}.

(** The defaults of [request.args.get]. *)
Definition default_params : params :=
  {| page := 1; per_page := 20; search := ""; agency := ""; naics := "";
     active := ""; sort_by := "posted_date"; sort_order := "desc" |}.

Record pagination := {
  pg_page : Z;
  pg_per_page : Z;
  pg_total : Z;
  pg_total_pages : Z;
  pg_has_next : bool;
  pg_has_prev : bool
}.

(** The handler answers with the page, or with the 500 error object when an
    exception reaches its [except] clause. *)
Inductive response :=
| Page (opportunities : list record) (pg : pagination)
| Error500.

(** The four guards of the filter loop; each one [continue]s past the
    record when its filter is set and the record does not match. *)
Definition search_check (q : params) (opp : record) : bool :=
  negb (Py.truthy (search q) &&
        negb (Py.is_in (Py.lower (search q))
                (Py.lower (get opp "title" +:+ " " +:+ get opp "description")))).

Definition agency_check (q : params) (opp : record) : bool :=
  negb (Py.truthy (agency q) &&
        negb (Py.is_in (agency q) (get opp "full_parent_path_name"))).

Definition naics_check (q : params) (opp : record) : bool :=
  negb (Py.truthy (naics q) &&
        negb (Py.is_in (naics q) (get opp "naics_code"))).

Definition active_check (q : params) (opp : record) : bool :=
  negb (Py.truthy (active q) &&
        negb (String.eqb (Py.lower (active q)) (Py.lower (get opp "active")))).

(** The [for opp in opportunities] loop, appending the records that pass
    every guard to [filtered_opportunities]. *)
Fixpoint filter_loop (q : params) (opportunities filtered : list record)
  : list record :=
  match opportunities with
  | [] => filtered
  | opp :: rest =>
      if negb (search_check q opp) then filter_loop q rest filtered
      else if negb (agency_check q opp) then filter_loop q rest filtered
      else if negb (naics_check q opp) then filter_loop q rest filtered
      else if negb (active_check q opp) then filter_loop q rest filtered
      else filter_loop q rest (filtered ++ [opp])
  end.

(** [sort_by in ['posted_date', 'response_deadline', 'title']] *)
Definition sortable (field : string) : bool :=
  String.eqb field "posted_date" || String.eqb field "response_deadline"
  || String.eqb field "title".

(** The sort key [x.get(sort_by, '') or '']; on strings [v or ''] is [v]. *)
Definition sort_key (field : string) (x : record) : string := get x field.

(** [filtered.sort(key=.., reverse=reverse)] *)
Definition sort_records (field : string) (reverse : bool) (l : list record)
  : list record :=
  Py.sort (fun x y => if reverse
                      then Py.str_le (sort_key field y) (sort_key field x)
                      else Py.str_le (sort_key field x) (sort_key field y)) l.

(** The sorting step: only for an allow-listed [sort_by]. *)
Definition sort_step (q : params) (filtered : list record) : list record :=
  if sortable (sort_by q)
  then sort_records (sort_by q) (String.eqb (sort_order q) "desc") filtered
  else filtered.

(** The pagination step over the filtered and sorted records.  The floor
    division raises ZeroDivisionError for [per_page = 0]. *)
Definition paginate (page per_page : Z) (l : list record) : response :=
  let total := Z.of_nat (length l) in
  let start := (page - 1) * per_page in
  let end_ := start + per_page in
  let paginated := Py.slice l start end_ in
  if per_page =? 0 then Error500
  else
    let total_pages := (total + per_page - 1) / per_page in
    Page paginated
      {| pg_page := page; pg_per_page := per_page; pg_total := total;
         pg_total_pages := total_pages;
         pg_has_next := page <? total_pages;
         pg_has_prev := 1 <? page |}.

(** [get_opportunities] over the records of the store. *)
Definition get_opportunities (q : params) (store : list record) : response :=
  let filtered := filter_loop q store [] in
  let sorted := sort_step q filtered in
  paginate (page q) (per_page q) sorted.

End InMemory.

(** ** The pushdown query engine (public/server.py) *)

Module Pushdown.

(** The query parameters of [list_opportunities], as [request.args] holds
    them ([search] is [request.args.get('search') or '']). *)
Record params := {
  start : Z;
  length_ : Z;
  search : string;
  order_col : string;
  order_dir : string
}.

Definition default_params : params :=
  {| start := 0; length_ := 25; search := ""; order_col := "8";
     order_dir := "desc" |}.

(** The JSON body of the answer; [error] is set in the body that the
    [except] clause sends with status 500. *)
Record response := {
  data : list record;
  recordsTotal : Z;
  recordsFiltered : Z;
  error : option string
}.

Definition failed : response :=
  {| data := []; recordsTotal := 0; recordsFiltered := 0;
     error := Some "Failed to load data" |}.

(** [sqlite3] binds a Python int as a signed 64-bit integer and raises
    OverflowError for any other. *)
Definition sqlite_int (n : Z) : bool := (- 2 ^ 63 <=? n) && (n <? 2 ^ 63).

(** The bytes of the UTF-8 form of a string of code points up to U+00FF. *)
Definition utf8_len (s : string) : Z :=
  fold_right (fun c n => (if (N_of_ascii c <? 128)%N then 1 else 2) + n) 0
    (Py.chars s).

(** SQLite refuses a LIKE pattern of more than 50000 bytes, the default of
    its limit SQLITE_LIMIT_LIKE_PATTERN_LENGTH, with the error "LIKE or GLOB
    pattern too complex", when it evaluates the pattern on a row. *)
Definition like_pattern_limit : Z := 50000.

(** SQLite's LIKE, on operands without U+0000: [%] matches any run of
    characters, [_] any one character, and letters match without regard to
    case for A-Z only. *)
Definition fold_ascii (c : ascii) : ascii :=
  let n := N_of_ascii c in
  if ((65 <=? n) && (n <=? 90))%N then ascii_of_N (n + 32) else c.

Fixpoint like (pattern s : list ascii) : bool :=
  match pattern with
  | [] => match s with [] => true | _ :: _ => false end
  | p :: pattern' =>
      if Ascii.eqb p "%" then
        (fix any (s : list ascii) : bool :=
           like pattern' s ||
           match s with [] => false | _ :: t => any t end) s
      else if Ascii.eqb p "_" then
        match s with [] => false | _ :: t => like pattern' t end
      else
        match s with
        | [] => false
        | c :: t => Ascii.eqb (fold_ascii p) (fold_ascii c) && like pattern' t
        end
  end.

(** [COALESCE(col,'') LIKE ?]; a row is a dict of its columns, a NULL
    column being an absent key. *)
Definition coalesce_like (row : record) (col : string) (pattern : string)
  : bool :=
  like (Py.chars pattern) (Py.chars (get row col)).

(** The columns searched by the WHERE clause. *)
Definition searched_columns : list string :=
  ["notice_id"; "title"; "agency"; "department"; "naics"; "psc"].

(** The WHERE clause: empty when [search] is empty, else the disjunction of
    the six LIKE tests with the pattern [%search%]. *)
Definition where_clause (search : string) (row : record) : bool :=
  if Py.truthy search
  then existsb (fun col => coalesce_like row col ("%" +:+ search +:+ "%"))
         searched_columns
  else true.

(** [col_map]: DataTables column index to table column. *)
Definition col_map : gmap string string :=
  list_to_map
    [("1", "notice_id"); ("2", "title"); ("3", "agency"); ("4", "department");
     ("5", "naics"); ("6", "psc"); ("7", "notice_type"); ("8", "posted_date");
     ("9", "response_due_date"); ("10", "setaside")].

(** The columns of the SELECT list. *)
Definition selected_columns : list string :=
  ["notice_id"; "title"; "agency"; "department"; "naics"; "psc";
   "notice_type"; "posted_date"; "response_due_date"; "setaside"].

Definition project (row : record) : record :=
  list_to_map
    (omap (fun col => (fun v => (col, v)) <$> row !! col) selected_columns).

(** Column values in ORDER BY: NULL sorts before every text, texts compare
    by code point (BINARY collation). *)
Definition sql_le (a b : option string) : bool :=
  match a, b with
  | None, _ => true
  | Some _, None => false
  | Some x, Some y => Py.str_le x y
  end.

(** [ORDER BY col dir].  SQL leaves the order of rows with equal keys open;
    the model keeps them in table order. *)
Definition order_by (col : string) (desc : bool) (rows : list record)
  : list record :=
  Py.sort (fun x y => if desc then sql_le (y !! col) (x !! col)
                      else sql_le (x !! col) (y !! col)) rows.

(** [LIMIT ? OFFSET ?]: a negative limit means no limit, a negative offset
    means none. *)
Definition limit_offset (limit offset : Z) (rows : list record)
  : list record :=
  let rest := drop (Z.to_nat offset) rows in
  if limit <? 0 then rest else take (Z.to_nat limit) rest.

(** The count query raises when the WHERE clause is evaluated, on the
    first row of the table, with a pattern beyond the limit. *)
Definition like_fails (search : string) (table : list record) : bool :=
  Py.truthy search
  && (like_pattern_limit <? utf8_len ("%" +:+ search +:+ "%"))
  && match table with [] => false | _ :: _ => true end.

(** [list_opportunities] over the rows of the opportunities table: the
    count query, then the data query, which binds [length] and [start];
    an exception of either is answered by the [except] clause. *)
Definition list_opportunities (q : params) (table : list record) : response :=
  let search := Py.strip (search q) in
  let order_dir := Py.lower (order_dir q) in
  let desc := String.eqb order_dir "desc" in
  let order_by_col := default "posted_date" (col_map !! order_col q) in
  let matching := filter (fun r => where_clause search r = true) table in
  if like_fails search table then failed
  else
    let total := Z.of_nat (length matching) in
    if negb (sqlite_int (length_ q) && sqlite_int (start q)) then failed
    else
      let rows :=
        project <$> limit_offset (length_ q) (start q)
                      (order_by order_by_col desc matching) in
      {| data := rows; recordsTotal := total; recordsFiltered := total;
         error := None |}.

End Pushdown.

(** ** Dates (Python's datetime) *)

Module Datetime.

(** A [datetime]: microseconds on the proleptic Gregorian time line since
    0001-01-01T00:00:00 as written on the wall clock, and the UTC offset in
    microseconds when the value is timezone-aware ([None] when naive). *)
Record datetime := {
  wall_us : Z;
  utcoffset : option Z
}.

Definition us_per_day : Z := 86400 * 1000000.

(** [a - b] in microseconds.  Two naive values and two aware values
    subtract; mixing a naive and an aware one raises TypeError. *)
Definition sub (a b : datetime) : option Z :=
  match utcoffset a, utcoffset b with
  | None, None => Some (wall_us a - wall_us b)
  | Some oa, Some ob => Some ((wall_us a - oa) - (wall_us b - ob))
  | _, _ => None
  end.

(** [timedelta.days]: whole days, rounded towards minus infinity. *)
Definition days (delta_us : Z) : Z := delta_us / us_per_day.

(** [datetime.now()]: a naive value. *)
Definition naive (us : Z) : datetime := {| wall_us := us; utcoffset := None |}.

(** *** A parser for the ISO-8601 shapes of [isoformat]

    [fromisoformat_basic] reads what [datetime.isoformat] writes, as
    [datetime.fromisoformat] has read it since Python 3.7: [YYYY-MM-DD],
    optionally followed by one separator character and the time
    [HH[:MM[:SS[.fff[fff]]]]], optionally followed by the offset
    [+HH:MM[:SS[.ffffff]]] or the same with [-].  Later versions of Python
    read further shapes as well; the theorems on the evaluation engine
    hold for any parser and use this one for their concrete inputs. *)

Definition digit (c : ascii) : option Z :=
  let n := N_of_ascii c in
  if ((48 <=? n) && (n <=? 57))%N then Some (Z.of_N n - 48) else None.

Definition number2 (a b : ascii) : option Z :=
  x ← digit a; y ← digit b; Some (10 * x + y).

Definition number4 (a b c d : ascii) : option Z :=
  x ← number2 a b; y ← number2 c d; Some (100 * x + y).

Definition is_leap (y : Z) : bool :=
  (y mod 4 =? 0) && (negb (y mod 100 =? 0) || (y mod 400 =? 0)).

Definition days_in_month (y m : Z) : Z :=
  if m =? 2 then (if is_leap y then 29 else 28)
  else if (m =? 4) || (m =? 6) || (m =? 9) || (m =? 11) then 30 else 31.

Definition days_before_year (y : Z) : Z :=
  let p := y - 1 in p * 365 + p / 4 - p / 100 + p / 400.

Fixpoint days_before_month (y : Z) (m : nat) : Z :=
  match m with
  | O => 0
  | S k => match k with
           | O => 0
           | S _ => days_before_month y k + days_in_month y (Z.of_nat k)
           end
  end.

(** Days since 0001-01-01 of a valid calendar date. *)
Definition date_days (y m d : Z) : option Z :=
  if (1 <=? y) && (y <=? 9999) && (1 <=? m) && (m <=? 12) && (1 <=? d)
     && (d <=? days_in_month y m)
  then Some (days_before_year y + days_before_month y (Z.to_nat m) + (d - 1))
  else None.

(** The time of day in microseconds, for fields in their ranges. *)
Definition time_us (h m s us : Z) : option Z :=
  if (h <=? 23) && (m <=? 59) && (s <=? 59)
  then Some (((h * 60 + m) * 60 + s) * 1000000 + us) else None.

(** [fff] or [ffffff], in microseconds. *)
Definition parse_fraction (l : list ascii) : option Z :=
  match l with
  | [a; b; c] => x ← number2 a b; y ← digit c; Some ((10 * x + y) * 1000)
  | [a; b; c; d; e; f] =>
      x ← number2 a b; y ← number2 c d; z ← number2 e f;
      Some ((x * 100 + y) * 100 + z)
  | _ => None
  end.

(** [HH[:MM[:SS[.fff[fff]]]]]: hour, minute, second, microsecond. *)
Definition parse_hh_mm_ss_ff (l : list ascii) : option (Z * Z * Z * Z) :=
  match l with
  | [h1; h2] => h ← number2 h1 h2; Some (h, 0, 0, 0)
  | [h1; h2; c1; m1; m2] =>
      if Ascii.eqb c1 ":" then
        h ← number2 h1 h2; m ← number2 m1 m2; Some (h, m, 0, 0)
      else None
  | h1 :: h2 :: c1 :: m1 :: m2 :: c2 :: s1 :: s2 :: fraction =>
      if Ascii.eqb c1 ":" && Ascii.eqb c2 ":" then
        h ← number2 h1 h2; m ← number2 m1 m2; s ← number2 s1 s2;
        us ← match fraction with
             | [] => Some 0
             | dot :: digits =>
                 if Ascii.eqb dot "." then parse_fraction digits else None
             end;
        Some (h, m, s, us)
      else None
  | _ => None
  end.

(** The time string up to its first sign, and from the sign on. *)
Fixpoint split_zone (l : list ascii) : list ascii * list ascii :=
  match l with
  | [] => ([], [])
  | c :: t =>
      if Ascii.eqb c "+" || Ascii.eqb c "-" then ([], l)
      else let '(clock, zone) := split_zone t in (c :: clock, zone)
  end.

(** The offset: a sign and [HH:MM[:SS[.ffffff]]], of less than a day. *)
Definition parse_offset (l : list ascii) : option (option Z) :=
  match l with
  | [] => Some None
  | sign :: zone =>
      if (length zone =? 5)%nat || (length zone =? 8)%nat
         || (length zone =? 15)%nat then
        '(h, m, s, us) ← parse_hh_mm_ss_ff zone;
        let off := ((h * 60 + m) * 60 + s) * 1000000 + us in
        if off <? us_per_day then
          Some (Some (if Ascii.eqb sign "-" then - off else off))
        else None
      else None
  end.

Definition parse_time (l : list ascii) : option (Z * option Z) :=
  match l with
  | [] => Some (0, None)
  | _sep :: rest =>
      let '(clock, zone) := split_zone rest in
      '(h, m, s, us) ← parse_hh_mm_ss_ff clock;
      t ← time_us h m s us; off ← parse_offset zone;
      Some (t, off)
  end.

Definition fromisoformat_basic (s : string) : option datetime :=
  match Py.chars s with
  | y1 :: y2 :: y3 :: y4 :: d1 :: m1 :: m2 :: d2 :: a :: b :: rest =>
      if Ascii.eqb d1 "-" && Ascii.eqb d2 "-" then
        y ← number4 y1 y2 y3 y4; m ← number2 m1 m2; d ← number2 a b;
        n ← date_days y m d;
        '(t, off) ← parse_time rest;
        Some {| wall_us := n * us_per_day + t; utcoffset := off |}
      else None
  | _ => None
  end.

End Datetime.

(** ** The evaluation engine *)

(** The advisory strings of [generate_evaluation_recommendations]; [message]
    gives the text of each (the pictograph that opens it left out). *)
Inductive recommendation :=
| Urgent (days_until_deadline : Z)
| PlanAccordingly (days_until_deadline : Z)
| GoodPlanningTime (days_until_deadline : Z)
| FormatUnclear
| SmallBusiness
| WomenOwned
| VeteranOwned
| NaicsCode (naics : string)
| CurrentlyActive
| NoLongerActive.

Definition message (r : recommendation) : string :=
  match r with
  | Urgent d =>
      "URGENT: Response deadline is in " +:+ Py.str_of_int d +:+ " days"
  | PlanAccordingly d =>
      "Response deadline is in " +:+ Py.str_of_int d
      +:+ " days - plan accordingly"
  | GoodPlanningTime d =>
      "Response deadline is in " +:+ Py.str_of_int d
      +:+ " days - good planning time"
  | FormatUnclear =>
      "Response deadline information available but format unclear"
  | SmallBusiness => "Small business set-aside opportunity"
  | WomenOwned => "Women-owned business set-aside opportunity"
  | VeteranOwned => "Veteran-owned business set-aside opportunity"
  | NaicsCode n => "NAICS Code: " +:+ n
  | CurrentlyActive => "Opportunity is currently active"
  | NoLongerActive => "Opportunity is no longer active"
  end.

Section Evaluation.

(** [datetime.fromisoformat], and the wall-clock reading of
    [datetime.now()] in microseconds. *)
Variable fromisoformat : string -> option Datetime.datetime.
Variable now : Z.

(** The body of the [try]: parse the deadline, subtract the naive [now],
    take the whole days.  [None] is any exception, which the bare [except]
    catches. *)
Definition days_until (response_deadline : string) : option Z :=
  deadline_date ← fromisoformat (Py.replace_Z "+00:00" response_deadline);
  delta ← Datetime.sub deadline_date (Datetime.naive now);
  Some (Datetime.days delta).

(** The deadline check, appending to [recommendations]. *)
Definition check_deadline (opportunity : record)
    (recommendations : list recommendation) : list recommendation :=
  match opportunity !! "response_deadline" with
  | None => recommendations
  | Some response_deadline =>
      if Py.truthy response_deadline then
        match days_until response_deadline with
        | Some days_until_deadline =>
            if days_until_deadline <? 7 then
              recommendations ++ [Urgent days_until_deadline]
            else if days_until_deadline <? 14 then
              recommendations ++ [PlanAccordingly days_until_deadline]
            else
              recommendations ++ [GoodPlanningTime days_until_deadline]
        | None => recommendations ++ [FormatUnclear]
        end
      else recommendations
  end.

(** The set-aside check. *)
Definition check_set_aside (opportunity : record)
    (recommendations : list recommendation) : list recommendation :=
  let set_aside := get opportunity "type_of_set_aside_description" in
  if Py.truthy set_aside then
    if Py.is_in "small business" (Py.lower set_aside) then
      recommendations ++ [SmallBusiness]
    else if Py.is_in "women" (Py.lower set_aside) then
      recommendations ++ [WomenOwned]
    else if Py.is_in "veteran" (Py.lower set_aside) then
      recommendations ++ [VeteranOwned]
    else recommendations
  else recommendations.

(** The NAICS check. *)
Definition check_naics (opportunity : record)
    (recommendations : list recommendation) : list recommendation :=
  let naics := get opportunity "naics_code" in
  if Py.truthy naics then recommendations ++ [NaicsCode naics]
  else recommendations.

(** The active check. *)
Definition check_active (opportunity : record)
    (recommendations : list recommendation) : list recommendation :=
  let active := get opportunity "active" in
  if Py.truthy active && String.eqb (Py.lower active) "yes" then
    recommendations ++ [CurrentlyActive]
  else if Py.truthy active && String.eqb (Py.lower active) "no" then
    recommendations ++ [NoLongerActive]
  else recommendations.

(** [generate_evaluation_recommendations] of app.py. *)
Definition generate_evaluation_recommendations (opportunity : record)
  : list recommendation :=
  let recommendations := [] in
  let recommendations := check_deadline opportunity recommendations in
  let recommendations := check_set_aside opportunity recommendations in
  let recommendations := check_naics opportunity recommendations in
  let recommendations := check_active opportunity recommendations in
  recommendations.

(** [generate_evaluation_recommendations] of app_render.py: the deadline
    check, then the active check, then the NAICS check. *)
Definition render_generate_evaluation_recommendations (opportunity : record)
  : list recommendation :=
  let recommendations := [] in
  let recommendations := check_deadline opportunity recommendations in
  let recommendations := check_active opportunity recommendations in
  let recommendations := check_naics opportunity recommendations in
  recommendations.

End Evaluation.

(** ** Python strings as code points *)

(** The descriptions given to the text extraction are modelled in full: a
    [str] is the sequence of its code points, each a number. *)
Module Text.

Definition text : Type := list N.

(** The code points of a string of U+0000..U+00FF. *)
Definition of_str (s : string) : text := N_of_ascii <$> Py.chars s.

(** [len(s)] *)
Definition len (s : text) : Z := Z.of_nat (length s).

(** Truthiness: [if s:] holds for the non-empty strings. *)
Definition truthy (s : text) : bool :=
  match s with [] => false | _ :: _ => true end.

(** [c.isspace()]: TAB LF VT FF CR, FS GS RS US, SPACE, NEL, NBSP, the
    Ogham space mark, U+2000..U+200A, the line and paragraph separators,
    the narrow and the medium mathematical space, the ideographic space. *)
Definition isspace (c : N) : bool :=
  ((0x9 <=? c) && (c <=? 0xD) || (0x1C <=? c) && (c <=? 0x20)
   || (c =? 0x85) || (c =? 0xA0) || (c =? 0x1680)
   || (0x2000 <=? c) && (c <=? 0x200A) || (c =? 0x2028) || (c =? 0x2029)
   || (c =? 0x202F) || (c =? 0x205F) || (c =? 0x3000))%N.

Fixpoint lstrip (l : text) : text :=
  match l with
  | c :: t => if isspace c then lstrip t else l
  | [] => []
  end.

(** [s.strip()] *)
Definition strip (s : text) : text := rev (lstrip (rev (lstrip s))).

Fixpoint starts_with (needle hay : text) : bool :=
  match needle, hay with
  | [], _ => true
  | _ :: _, [] => false
  | a :: n', b :: h' => if (a =? b)%N then starts_with n' h' else false
  end.

Fixpoint contains (needle hay : text) : bool :=
  starts_with needle hay ||
  match hay with
  | [] => false
  | _ :: t => contains needle t
  end.

(** [needle in hay] *)
Definition is_in (needle hay : text) : bool := contains needle hay.

Fixpoint find_from (needle hay : text) (i : Z) : Z :=
  if starts_with needle hay then i
  else match hay with
       | [] => -1
       | _ :: t => find_from needle t (i + 1)
       end.

(** [hay.find(needle)]: the lowest index of an occurrence, or -1. *)
Definition find (needle hay : text) : Z := find_from needle hay 0.

Section Lower.

(** The lowercase mapping of the Unicode character database: the code
    points that one code point turns into.  [str.lower] applies it code
    point by code point; its one rule that looks at the neighbours, for a
    capital sigma at the end of a word, chooses between the two single
    code points U+03C3 and U+03C2.  Neither stands in a keyword of the
    extraction, so the places where a keyword is found, and the contexts
    cut there, are the same under either choice. *)
Variable lower_cp : N -> list N.

(** [s.lower()] *)
Definition lower (s : text) : text := concat (lower_cp <$> s).

End Lower.

(** The lowercase mapping on U+0000..U+00FF and at U+0130, the capital I
    with dot above, which turns into i followed by the combining dot above
    U+0307.  The other code points are entered as unchanged. *)
Definition lower_cp_basic (c : N) : list N :=
  if (c =? 0x130)%N then [0x69; 0x307]%N
  else if ((0x41 <=? c) && (c <=? 0x5A) || (0xC0 <=? c) && (c <=? 0xD6)
           || (0xD8 <=? c) && (c <=? 0xDE))%N
       then [(c + 32)%N]
       else [c].

End Text.

(** ** The text extraction engine (app.py) *)

Section Extraction.

Variable lower_cp : N -> list N.

(** The body of [for keyword in keywords]: when the keyword is in the
    lowered description, the slice of the description at the index found
    there is cut, stripped, and appended. *)
Definition scan_keyword (before after : Z)
    (description description_lower : Text.text)
    (found : list Text.text) (keyword : Text.text) : list Text.text :=
  if Text.is_in keyword description_lower then
    let start := Text.find keyword description_lower in
    if negb (start =? -1) then
      let context_start := Z.max 0 (start - before) in
      let context_end :=
        Z.min (Text.len description) (start + Text.len keyword + after) in
      let context :=
        Text.strip (Py.slice description context_start context_end) in
      found ++ [context]
    else found
  else found.

(** The two extraction functions share their body: the early return on an
    empty description, the loop over the keyword list, and the final
    [found[:cap]]. *)
Definition extract_contexts (keywords : list Text.text) (before after cap : Z)
    (description : Text.text) : list Text.text :=
  let found := [] in
  if negb (Text.truthy description) then found
  else
    let description_lower := Text.lower lower_cp description in
    let found :=
      fold_left (scan_keyword before after description description_lower)
        keywords found in
    Py.slice found 0 cap.

Definition deliverable_keywords : list Text.text :=
  Text.of_str <$>
  ["deliverable"; "deliverables"; "report"; "reports"; "document"; "documents";
   "analysis"; "analyses"; "study"; "studies"; "assessment"; "assessments";
   "plan"; "plans"; "strategy"; "strategies"; "proposal"; "proposals";
   "presentation"; "presentations"; "training"; "workshop"; "workshops";
   "software"; "application"; "applications"; "system"; "systems";
   "database"; "databases"; "website"; "websites"; "platform"; "platforms"].

Definition requirement_keywords : list Text.text :=
  Text.of_str <$>
  ["requirement"; "requirements"; "must"; "shall"; "should"; "need"; "needs";
   "experience"; "qualification"; "qualifications"; "certification";
   "certifications"; "license"; "licenses"; "clearance"; "clearances";
   "security"; "compliance"; "timeline"; "schedule"; "deadline"; "deadlines";
   "milestone"; "milestones"; "budget"; "cost"; "pricing"; "price"; "funding";
   "payment"; "terms"; "scope"; "work"; "tasks"; "activities";
   "responsibilities"; "duties"].

Definition extract_deliverables_from_description (description : Text.text)
  : list Text.text :=
  extract_contexts deliverable_keywords 50 50 10 description.

Definition extract_proposal_requirements_from_description
    (description : Text.text) : list Text.text :=
  extract_contexts requirement_keywords 100 100 15 description.

End Extraction.

(** ** The evaluation and extraction handlers (app.py) *)

(** What a handler answers: the JSON body, or the 404 error object. *)
Inductive answer (A : Type) :=
| Ok200 (body : A)
| NotFound404.
Arguments Ok200 {A} body.
Arguments NotFound404 {A}.

(** The [description] entry of an evaluation:
    [d[:500] + '...' if d and len(d) > 500 else opportunity.get('description')]. *)
Definition evaluation_description (opportunity : record) : option string :=
  if match opportunity !! "description" with
     | Some d => Py.truthy d
     | None => false
     end
     && (500 <? Py.len (get opportunity "description"))
  then Some (Py.substr (get opportunity "description") 0 500 +:+ "...")
  else opportunity !! "description".

(** The body of an evaluation; [opportunity.get(k)] is [None] for a missing
    key. *)
Record evaluation := {
  ev_notice_id : option string;
  ev_title : option string;
  ev_agency : option string;
  ev_posted_date : option string;
  ev_response_deadline : option string;
  ev_type : option string;
  ev_set_aside_type : option string;
  ev_naics_code : option string;
  ev_active : option string;
  ev_description : option string;
  ev_point_of_contact : option string;
  ev_ui_link : option string;
  ev_recommendations : list recommendation
}.


Section Handlers.

(** [db_manager.get_opportunity], [datetime.fromisoformat] and the reading
    of [datetime.now()]. *)
Variable get_opportunity : string -> option record.
Variable fromisoformat : string -> option Datetime.datetime.
Variable now : Z.

(** [if not opportunity]: no record, or an empty dict. *)
Definition found (notice_id : string) : option record :=
  match get_opportunity notice_id with
  | Some opportunity => if decide (opportunity = ∅) then None else Some opportunity
  | None => None
  end.

(** [evaluate_opportunity] *)
Definition evaluate_opportunity (notice_id : string) : answer evaluation :=
  match found notice_id with
  | None => NotFound404
  | Some opportunity =>
      Ok200
        {| ev_notice_id := opportunity !! "notice_id";
           ev_title := opportunity !! "title";
           ev_agency := opportunity !! "full_parent_path_name";
           ev_posted_date := opportunity !! "posted_date";
           ev_response_deadline := opportunity !! "response_deadline";
           ev_type := opportunity !! "type";
           ev_set_aside_type := opportunity !! "type_of_set_aside_description";
           ev_naics_code := opportunity !! "naics_code";
           ev_active := opportunity !! "active";
           ev_description := evaluation_description opportunity;
           ev_point_of_contact := opportunity !! "point_of_contact";
           ev_ui_link := opportunity !! "ui_link";
           ev_recommendations :=
             generate_evaluation_recommendations fromisoformat now opportunity |}
  end.


End Handlers.

(** ** Statistics (app.py get_stats, app_render.py api_stats) *)

(** A dict that counts, in insertion order: [d[k] = d.get(k, 0) + 1]. *)
Fixpoint dict_incr (d : list (string * Z)) (k : string) : list (string * Z) :=
  match d with
  | [] => [(k, 1)]
  | (k', n) :: rest =>
      if String.eqb k' k then (k', n + 1) :: rest
      else (k', n) :: dict_incr rest k
  end.

(** [a >= b] on datetimes: two naive or two aware values compare; a naive
    and an aware one raise TypeError. *)
Definition datetime_ge (a b : Datetime.datetime) : option bool :=
  match Datetime.utcoffset a, Datetime.utcoffset b with
  | None, None => Some (Datetime.wall_us b <=? Datetime.wall_us a)
  | Some oa, Some ob =>
      Some (Datetime.wall_us b - ob <=? Datetime.wall_us a - oa)
  | _, _ => None
  end.

(** [sorted(d.items(), key=lambda x: x[1], reverse=True)[:10]] *)
Definition top10 (d : list (string * Z)) : list (string * Z) :=
  Py.slice (Py.sort (fun x y => snd y <=? snd x) d) 0 10.

Record stats := {
  total_opportunities : Z;
  active_opportunities : Z;
  recent_opportunities : Z;
  top_agencies : list (string * Z);
  top_naics : list (string * Z)
}.

Section Stats.

Variable fromisoformat : string -> option Datetime.datetime.
Variable now : Z.

(** The agency distribution loop. *)
Definition count_agencies (opportunities : list record) : list (string * Z) :=
  fold_left
    (fun agencies opp =>
       let agency := default "Unknown" (opp !! "full_parent_path_name") in
       dict_incr agencies agency)
    opportunities [].

(** The NAICS distribution loop. *)
Definition count_naics (opportunities : list record) : list (string * Z) :=
  fold_left
    (fun naics_codes opp =>
       let naics := default "Unknown" (opp !! "naics_code") in
       if Py.truthy naics then dict_incr naics_codes naics else naics_codes)
    opportunities [].

(** The recent-opportunities loop: a posted date that fails to parse, or
    to compare with the naive [week_ago], is skipped by the bare [except]. *)
Definition count_recent (opportunities : list record) : Z :=
  let week_ago := Datetime.naive (now - 7 * Datetime.us_per_day) in
  fold_left
    (fun recent_opportunities opp =>
       let posted_date := get opp "posted_date" in
       if Py.truthy posted_date then
         match fromisoformat (Py.replace_Z "+00:00" posted_date) with
         | Some opp_date =>
             match datetime_ge opp_date week_ago with
             | Some true => recent_opportunities + 1
             | Some false => recent_opportunities
             | None => recent_opportunities
             end
         | None => recent_opportunities
         end
       else recent_opportunities)
    opportunities 0.

(** [get_stats] *)
Definition get_stats (opportunities : list record) : stats :=
  {| total_opportunities := Z.of_nat (length opportunities);
     active_opportunities :=
       Z.of_nat
         (length
            (List.filter
               (fun o => String.eqb (Py.lower (get o "active")) "yes")
               opportunities));
     recent_opportunities := count_recent opportunities;
     top_agencies := top10 (count_agencies opportunities);
     top_naics := top10 (count_naics opportunities) |}.

End Stats.

(** ** Email requests (app.py send_email_request) *)

(** [s.split(sep)] for a separator of one character. *)
Fixpoint split_chars (sep : ascii) (l : list ascii) : list (list ascii) :=
  match l with
  | [] => [[]]
  | c :: t =>
      if Ascii.eqb c sep then [] :: split_chars sep t
      else match split_chars sep t with
           | part :: parts => (c :: part) :: parts
           | [] => [[c]]
           end
  end.

Definition py_split (sep : ascii) (s : string) : list string :=
  Py.str <$> split_chars sep (Py.chars s).

(** The request body, with the defaults of [data.get]. *)
Record email_request := {
  rq_notice_ids : list string;
  rq_request_type : string;
  rq_user_email : string
}.

(** The entries of [email_data] that are computed from the body. *)
Record email_data := {
  ed_user_id : string;
  ed_from_email : string;
  ed_request_type : string;
  ed_notice_ids : list string
}.

(** The validation of [send_email_request] and the request it queues;
    [None] is the 400 answer.  [split] always returns a first part. *)
Definition email_data_of (data : email_request) : option email_data :=
  if negb (match rq_notice_ids data with [] => false | _ :: _ => true end)
     || negb (Py.truthy (rq_user_email data))
  then None
  else
    Some {| ed_user_id := default "" (head (py_split "@" (rq_user_email data)));
            ed_from_email := rq_user_email data;
            ed_request_type := rq_request_type data;
            ed_notice_ids := rq_notice_ids data |}.

(** ** Passwords (public/server.py) *)

Section Passwords.

(** [hashlib.sha256(s.encode()).hexdigest()] *)
Variable sha256_hexdigest : string -> string.

(** [hash_password], for the salt drawn by [secrets.token_hex(16)]. *)
Definition hash_password (salt password : string) : string :=
  salt +:+ ":" +:+ sha256_hexdigest (password +:+ salt).

(** [verify_password]: unpacking anything but two parts raises, and the
    bare [except] answers False. *)
Definition verify_password (password stored_hash : string) : bool :=
  match py_split ":" stored_hash with
  | [salt; password_hash] =>
      String.eqb (sha256_hexdigest (password +:+ salt)) password_hash
  | _ => false
  end.

End Passwords.

(** ** The mock store (app_render.py get_opportunity) *)

(** The fallback loop of [get_opportunity]: the first mock record whose
    notice_id is the one asked for.  [opp['notice_id']] raises KeyError on
    a record without the key: the outer [None] is that exception. *)
Fixpoint mock_get_opportunity (mock : list record) (notice_id : string)
  : option (option record) :=
  match mock with
  | [] => Some None
  | opp :: rest =>
      match opp !! "notice_id" with
      | None => None
      | Some id =>
          if String.eqb id notice_id then Some (Some opp)
          else mock_get_opportunity rest notice_id
      end
  end.

(** ** Vocabulary of the specification *)

(** [needle] occurs in [hay] at index [i]. *)
Definition occurs_at (needle hay : string) (i : nat) : Prop :=
  exists pre post,
    Py.chars hay = pre ++ Py.chars needle ++ post /\ length pre = i.

(** Substring containment, as written and without regard to case. *)
Definition is_substring (needle hay : string) : Prop :=
  exists i, occurs_at needle hay i.

Definition ci_substring (needle hay : string) : Prop :=
  is_substring (Py.lower needle) (Py.lower hay).

(** The first occurrence of [needle] in [hay]. *)
Definition first_occurrence (needle hay : string) (i : nat) : Prop :=
  occurs_at needle hay i /\ forall j, occurs_at needle hay j -> (i <= j)%nat.

(** Equality of strings without regard to case. *)
Definition ci_equal (a b : string) : Prop := Py.lower a = Py.lower b.

(** A record passes the filter when it passes each of the four checks. *)
Definition passes (q : InMemory.params) (opp : record) : bool :=
  InMemory.search_check q opp && InMemory.agency_check q opp
  && InMemory.naics_check q opp && InMemory.active_check q opp.

(** The row order obtained by sorting on [field], ascending or descending. *)
Definition sorted_on (field : string) (sort_order : string)
    (l : list record) : list record :=
  InMemory.sort_records field (String.eqb sort_order "desc") l.

(** [n] is the ceiling of [total / per_page]. *)
Definition is_ceil_div (total per_page n : Z) : Prop :=
  per_page * (n - 1) < total <= per_page * n.

(** The check, 1 to 4, that a recommendation comes from. *)
Definition check_number (r : recommendation) : nat :=
  match r with
  | Urgent _ | PlanAccordingly _ | GoodPlanningTime _ | FormatUnclear => 1
  | SmallBusiness | WomenOwned | VeteranOwned => 2
  | NaicsCode _ => 3
  | CurrentlyActive | NoLongerActive => 4
  end.

(** [needle] stands in [hay] at index [i]. *)
Definition stands_at (needle hay : Text.text) (i : nat) : Prop :=
  exists pre post, hay = pre ++ needle ++ post /\ length pre = i.

(** The characters of [description] from [before] characters ahead of index
    [i] to [after] characters past the keyword that stands there, within
    the bounds of the description. *)
Definition window (before after : nat) (description keyword : Text.text)
    (i : nat) : Text.text :=
  let n := length description in
  let lo := (i - before)%nat in
  let hi := Nat.min (i + length keyword + after) n in
  take (hi - lo) (drop lo description).

Section TextVocabulary.

Variable lower_cp : N -> list N.

(** Lowering keeps every character of [s] one character.  Under Python's
    mapping these are the strings without U+0130, the one code point whose
    lowercase form is longer. *)
Definition keeps_length (s : Text.text) : Prop :=
  Forall (fun c => length (lower_cp c) = 1%nat) s.

(** The keyword, given in lower case, stands in the description at index
    [i] without regard to case: a run of characters of the description
    that starts at index [i] gives the keyword when lowered. *)
Definition matches_at (keyword description : Text.text) (i : nat) : Prop :=
  exists pre m post,
    description = pre ++ m ++ post /\ length pre = i
    /\ Text.lower lower_cp m = keyword.

Definition ci_contains (keyword description : Text.text) : Prop :=
  exists i, matches_at keyword description i.

(** The first place where the keyword stands in the description. *)
Definition first_match (keyword description : Text.text) (i : nat) : Prop :=
  matches_at keyword description i
  /\ forall j, matches_at keyword description j -> (i <= j)%nat.

(** What one keyword contributes: nothing when it does not occur in the
    description (without regard to case), else the one stripped window
    around its first occurrence. *)
Definition contribution (before after : nat)
    (description keyword : Text.text) (found : list Text.text) : Prop :=
  (~ ci_contains keyword description /\ found = [])
  \/ (exists i, first_match keyword description i
        /\ found = [Text.strip (window before after description keyword i)]).

(** The result of an extraction: the contributions of the keywords, in the
    order of the keyword list, cut after [cap] contexts. *)
Definition extraction_spec (keywords : list Text.text)
    (before after cap : nat) (description : Text.text)
    (result : list Text.text) : Prop :=
  (exists per_keyword,
      Forall2 (contribution before after description) keywords per_keyword
      /\ result = take cap (concat per_keyword))
  /\ (length result <= cap)%nat
  /\ (description = [] -> result = []).

End TextVocabulary.

(** The rows of an answer; none for the error object. *)
Definition rows_of (r : InMemory.response) : list record :=
  match r with
  | InMemory.Page rows _ => rows
  | InMemory.Error500 => []
  end.

(** The pages 1 to [n] of a listing, row windows one after the other. *)
Definition pages_upto (per_page : Z) (l : list record) (n : nat)
  : list record :=
  concat ((fun p => rows_of (InMemory.paginate (Z.of_nat p) per_page l))
            <$> seq 1 n).

(** The order of two records under a sort on [field]. *)
Definition in_order (field : string) (reverse : bool) (x y : record) : Prop :=
  if reverse
  then Py.str_le (get y field) (get x field) = true
  else Py.str_le (get x field) (get y field) = true.




(** The description as an evaluation shows it: whole up to 500 characters,
    else its first 500 characters and an ellipsis. *)
Definition shown_description (d : string) : string :=
  if decide (Py.len d <= 500) then d
  else Py.str (take 500 (Py.chars d)) +:+ "...".

(** How many of the [keys] are [k]. *)
Definition occurrences (keys : list string) (k : string) : Z :=
  Z.of_nat (length (filter (fun x => x = k) keys)).

(** The agency and the NAICS code under which the statistics count a
    record; ['Unknown'] stands for a missing field. *)
Definition agency_of (opp : record) : string :=
  default "Unknown" (opp !! "full_parent_path_name").

Definition naics_of (opp : record) : string :=
  default "Unknown" (opp !! "naics_code").

(** The sum of the counts of a distribution. *)
Definition total_count (d : list (string * Z)) : Z :=
  foldr (fun kv acc => snd kv + acc) 0 d.

(** [d.get(k, 0)] on a counting dict. *)
Fixpoint dict_get (d : list (string * Z)) (k : string) : Z :=
  match d with
  | [] => 0
  | (k', n) :: rest => if String.eqb k' k then n else dict_get rest k
  end.

(** The order of two entries of a top list: the count does not grow. *)
Definition count_ge (x y : string * Z) : Prop := snd y <= snd x.

(** The column a pushdown query orders by, and the order of two rows under
    ORDER BY on a column. *)
Definition order_column (q : Pushdown.params) : string :=
  default "posted_date" (Pushdown.col_map !! Pushdown.order_col q).

Definition sql_in_order (col : string) (desc : bool) (x y : record) : Prop :=
  if desc then Pushdown.sql_le (y !! col) (x !! col) = true
  else Pushdown.sql_le (x !! col) (y !! col) = true.

(** The pushdown query [q] asked for another window of rows. *)
Definition with_window (q : Pushdown.params) (start length : Z)
  : Pushdown.params :=
  {| Pushdown.start := start; Pushdown.length_ := length;
     Pushdown.search := Pushdown.search q;
     Pushdown.order_col := Pushdown.order_col q;
     Pushdown.order_dir := Pushdown.order_dir q |}.

(** What a row of a pushdown answer holds of a table row: the selected
    columns, with the values of the table row. *)
Definition selects (answer_row row : record) : Prop :=
  forall col,
    answer_row !! col
    = if decide (col ∈ Pushdown.selected_columns) then row !! col else None.

(** ** Sample data *)

(** The two records of [MOCK_OPPORTUNITIES] (app_render.py). *)
Definition demo001 : record :=
  {[ "notice_id" := "DEMO001";
     "title" := "IT Services and Support";
     "solicitation_number" := "IT-2024-001";
     "full_parent_path_name" := "Department of Defense";
     "posted_date" := "2024-01-15T10:00:00Z";
     "response_deadline" := "2024-02-15T17:00:00Z";
     "type" := "Solicitation";
     "naics_code" := "541511";
     "active" := "Yes";
     "description" := "Comprehensive IT services including software development, maintenance, and support for government systems.";
     "point_of_contact" := "John Smith, john.smith@dod.mil";
     "ui_link" := "https://sam.gov/opp/DEMO001" ]}.

Definition demo002 : record :=
  {[ "notice_id" := "DEMO002";
     "title" := "Construction Services";
     "solicitation_number" := "CONST-2024-002";
     "full_parent_path_name" := "General Services Administration";
     "posted_date" := "2024-01-20T14:30:00Z";
     "response_deadline" := "2024-02-20T16:00:00Z";
     "type" := "Solicitation";
     "naics_code" := "236220";
     "active" := "Yes";
     "description" := "Construction and renovation services for federal buildings and facilities.";
     "point_of_contact" := "Jane Doe, jane.doe@gsa.gov";
     "ui_link" := "https://sam.gov/opp/DEMO002" ]}.

Definition MOCK_OPPORTUNITIES : list record := [demo001; demo002].

(** The default query with one parameter set. *)
Definition with_agency (a : string) : InMemory.params :=
  {| InMemory.page := 1; InMemory.per_page := 20; InMemory.search := "";
     InMemory.agency := a; InMemory.naics := ""; InMemory.active := "";
     InMemory.sort_by := "posted_date"; InMemory.sort_order := "desc" |}.

Definition with_active (a : string) : InMemory.params :=
  {| InMemory.page := 1; InMemory.per_page := 20; InMemory.search := "";
     InMemory.agency := ""; InMemory.naics := ""; InMemory.active := a;
     InMemory.sort_by := "posted_date"; InMemory.sort_order := "desc" |}.

Definition with_search (s : string) : InMemory.params :=
  {| InMemory.page := 1; InMemory.per_page := 20; InMemory.search := s;
     InMemory.agency := ""; InMemory.naics := ""; InMemory.active := "";
     InMemory.sort_by := "posted_date"; InMemory.sort_order := "desc" |}.

Definition with_sort_by (f : string) : InMemory.params :=
  {| InMemory.page := 1; InMemory.per_page := 20; InMemory.search := "";
     InMemory.agency := ""; InMemory.naics := ""; InMemory.active := "";
     InMemory.sort_by := f; InMemory.sort_order := "desc" |}.

Definition with_page (p pp : Z) : InMemory.params :=
  {| InMemory.page := p; InMemory.per_page := pp; InMemory.search := "";
     InMemory.agency := ""; InMemory.naics := ""; InMemory.active := "";
     InMemory.sort_by := "posted_date"; InMemory.sort_order := "desc" |}.

(** A clock reading, 2024-02-10T09:00:00, and a record with a set-aside
    whose deadline, written without a UTC suffix, is five days later. *)
Definition sample_now : Z :=
  match Datetime.fromisoformat_basic "2024-02-10T09:00:00" with
  | Some d => Datetime.wall_us d
  | None => 0
  end.

Definition set_aside_sample : record :=
  {[ "notice_id" := "DEMO003";
     "response_deadline" := "2024-02-15T17:00:00";
     "type_of_set_aside_description" := "Total Small Business Set-Aside";
     "naics_code" := "541511";
     "active" := "Yes" ]}.

(** A description in which "deliverable" stands alone 131 characters ahead
    of "deliverables". *)
Definition split_occurrences : Text.text :=
  Text.of_str "deliverable" ++ replicate 120 0x2D%N
  ++ Text.of_str "deliverables".

(** Sixty capital I with dot above, U+0130, and the word "plan". *)
Definition dotted_plan : Text.text :=
  replicate 60 0x130%N ++ Text.of_str "plan".

(** The same ahead of "deliverables". *)
Definition dotted_deliverables : Text.text :=
  replicate 60 0x130%N ++ Text.of_str "deliverables".

(** A short description that holds "Deliverables" once. *)
Definition ships : Text.text := Text.of_str "All Deliverables ship.".

(** The default pushdown query with a search string. *)
Definition push_search (s : string) : Pushdown.params :=
  {| Pushdown.start := 0; Pushdown.length_ := 25; Pushdown.search := s;
     Pushdown.order_col := "8"; Pushdown.order_dir := "desc" |}.

(** The pushdown query for a window of rows, under a search string of
    blanks. *)
Definition push_window (start length : Z) : Pushdown.params :=
  {| Pushdown.start := start; Pushdown.length_ := length;
     Pushdown.search := "  "; Pushdown.order_col := "8";
     Pushdown.order_dir := "desc" |}.

Definition with_naics (n : string) : InMemory.params :=
  {| InMemory.page := 1; InMemory.per_page := 20; InMemory.search := "";
     InMemory.agency := ""; InMemory.naics := n; InMemory.active := "";
     InMemory.sort_by := "posted_date"; InMemory.sort_order := "desc" |}.

Definition with_agency_naics (a n : string) : InMemory.params :=
  {| InMemory.page := 1; InMemory.per_page := 20; InMemory.search := "";
     InMemory.agency := a; InMemory.naics := n; InMemory.active := "";
     InMemory.sort_by := "posted_date"; InMemory.sort_order := "desc" |}.

(** A store of the two demo records, and the evaluation of the first. *)
Definition demo_store (notice_id : string) : option record :=
  if String.eqb notice_id "DEMO001" then Some demo001
  else if String.eqb notice_id "DEMO002" then Some demo002
  else None.

Definition demo001_evaluation : evaluation :=
  {| ev_notice_id := Some "DEMO001";
     ev_title := demo001 !! "title";
     ev_agency := demo001 !! "full_parent_path_name";
     ev_posted_date := demo001 !! "posted_date";
     ev_response_deadline := demo001 !! "response_deadline";
     ev_type := demo001 !! "type";
     ev_set_aside_type := None;
     ev_naics_code := demo001 !! "naics_code";
     ev_active := demo001 !! "active";
     ev_description := demo001 !! "description";
     ev_point_of_contact := demo001 !! "point_of_contact";
     ev_ui_link := demo001 !! "ui_link";
     ev_recommendations :=
       [FormatUnclear; NaicsCode "541511"; CurrentlyActive] |}.

(** Three rows of the opportunities table (public/server.py); the third
    has no posted date. *)
Definition table_row1 : record :=
  {[ "notice_id" := "N-001"; "title" := "Network Upgrade";
     "agency" := "General Services Administration"; "naics" := "541512";
     "posted_date" := "2024-03-01"; "description" := "Switches and routers" ]}.

Definition table_row2 : record :=
  {[ "notice_id" := "N-002"; "title" := "Bridge repair";
     "agency" := "Department of Transportation"; "naics" := "237310";
     "posted_date" := "2024-02-01" ]}.

Definition table_row3 : record :=
  {[ "notice_id" := "N-003"; "title" := "Janitorial services";
     "agency" := "General Services Administration"; "psc" := "S201" ]}.

Definition sample_table : list record := [table_row1; table_row2; table_row3].


(** * Facts on the Python primitives *)

Section PyFacts.

Lemma chars_str l : Py.chars (Py.str l) = l.
Proof. apply list_ascii_of_string_of_list_ascii. Qed.

Lemma str_chars s : Py.str (Py.chars s) = s.
Proof. apply string_of_list_ascii_of_string. Qed.

Lemma chars_inj s t : Py.chars s = Py.chars t -> s = t.
Proof. intros H. rewrite <- (str_chars s), <- (str_chars t). now f_equal. Qed.

Lemma chars_app s t : Py.chars (s +:+ t) = Py.chars s ++ Py.chars t.
Proof.
  unfold Py.chars. induction s as [|c s IH]; simpl; [done|]. now rewrite IH.
Qed.

Lemma truthy_true s : Py.truthy s = true <-> s <> "".
Proof. destruct s; simpl; split; intros; congruence. Qed.

Lemma truthy_false s : Py.truthy s = false <-> s = "".
Proof. destruct s; simpl; split; intros; congruence. Qed.

Lemma chars_lower s : Py.chars (Py.lower s) = map Py.lower_char (Py.chars s).
Proof. unfold Py.lower. apply chars_str. Qed.

Lemma length_lower s :
  length (Py.chars (Py.lower s)) = length (Py.chars s).
Proof. rewrite chars_lower. apply length_map. Qed.

Lemma starts_with_spec needle hay :
  Py.starts_with needle hay = true <-> exists post, hay = needle ++ post.
Proof.
  revert hay. induction needle as [|a n IH]; intros hay; simpl.
  - split; [intros _; now exists hay | done].
  - destruct hay as [|b h].
    + split; [done | intros [post H]; discriminate].
    + destruct (Ascii.eqb_spec a b) as [->|Hne].
      * rewrite IH. split; intros [post H]; exists post; simpl in *; congruence.
      * split; [done | intros [post H]; simpl in H; congruence].
Qed.

Lemma contains_spec needle hay :
  Py.contains needle hay = true <->
  exists pre post, hay = pre ++ needle ++ post.
Proof.
  induction hay as [|b h IH]; simpl.
  - rewrite orb_false_r, starts_with_spec. split.
    + intros [post H]. now exists [], post.
    + intros (pre & post & H). destruct pre; [|discriminate].
      now exists post.
  - rewrite orb_true_iff, starts_with_spec, IH. split.
    + intros [[post H]|(pre & post & H)].
      * now exists [], post.
      * exists (b :: pre), post. simpl. congruence.
    + intros (pre & post & H). destruct pre as [|c pre]; simpl in H.
      * left. now exists post.
      * right. exists pre, post. congruence.
Qed.

Lemma is_in_spec needle hay :
  Py.is_in needle hay = true <-> is_substring needle hay.
Proof.
  unfold Py.is_in, is_substring, occurs_at. rewrite contains_spec. split.
  - intros (pre & post & H). exists (length pre), pre, post. done.
  - intros (i & pre & post & H & _). now exists pre, post.
Qed.

(** [find_from] returns the first index at which the needle occurs, counted
    from [i], and -1 exactly when there is none. *)
Lemma find_from_spec needle hay i :
  (Py.contains needle hay = false /\ Py.find_from needle hay i = -1)
  \/ (exists k : nat,
        Py.find_from needle hay i = i + Z.of_nat k
        /\ (exists pre post, hay = pre ++ needle ++ post /\ length pre = k)
        /\ forall pre post, hay = pre ++ needle ++ post -> (k <= length pre)%nat).
Proof.
  revert i. induction hay as [|b h IH]; intros i; simpl.
  - destruct (Py.starts_with needle []) eqn:E.
    + right. exists 0%nat. apply starts_with_spec in E as [post E].
      split; [lia|]. split; [now exists [], post | intros; lia].
    + left. done.
  - destruct (Py.starts_with needle (b :: h)) eqn:E.
    + right. exists 0%nat. apply starts_with_spec in E as [post E].
      split; [lia|]. split; [now exists [], post | intros; lia].
    + simpl. destruct (IH (i + 1)) as [[Hc Hf]|(k & Hf & (pre & post & Hh & Hl) & Hmin)].
      * left. done.
      * right. exists (S k). split; [lia|]. split.
        -- exists (b :: pre), post. simpl. split; congruence.
        -- intros pre' post' H'. destruct pre' as [|c pre']; simpl in H'.
           ++ exfalso. assert (Py.starts_with needle (b :: h) = true); [|congruence].
              apply starts_with_spec. now exists post'.
           ++ simpl. apply le_n_S. apply (Hmin pre' post'). congruence.
Qed.

Lemma find_absent needle hay :
  Py.is_in needle hay = false -> Py.find needle hay = -1.
Proof.
  unfold Py.is_in, Py.find. intros H.
  destruct (find_from_spec (Py.chars needle) (Py.chars hay) 0)
    as [[_ Hf]|(k & _ & (pre & post & Hh & _) & _)]; [done|].
  assert (Py.contains (Py.chars needle) (Py.chars hay) = true); [|congruence].
  apply contains_spec. now exists pre, post.
Qed.

Lemma find_present needle hay :
  Py.is_in needle hay = true ->
  exists i : nat, Py.find needle hay = Z.of_nat i /\ first_occurrence needle hay i.
Proof.
  unfold Py.is_in, Py.find. intros H.
  destruct (find_from_spec (Py.chars needle) (Py.chars hay) 0)
    as [[Hc _]|(k & Hf & (pre & post & Hh & Hl) & Hmin)]; [congruence|].
  exists k. split; [lia|]. split.
  - now exists pre, post.
  - intros j (pre' & post' & H' & <-). eauto.
Qed.

Lemma first_occurrence_unique needle hay i j :
  first_occurrence needle hay i -> first_occurrence needle hay j -> i = j.
Proof.
  intros [Hi Hmi] [Hj Hmj]. specialize (Hmi _ Hj). specialize (Hmj _ Hi). lia.
Qed.

End PyFacts.

(** * The in-memory query engine *)

Section QueryFacts.

Import InMemory.

(** The loop keeps, in store order, the records that pass the four checks. *)
Lemma filter_loop_spec q opportunities filtered :
  filter_loop q opportunities filtered
  = filtered ++ List.filter (passes q) opportunities.
Proof.
  revert filtered. induction opportunities as [|opp rest IH]; intros filtered.
  - simpl. now rewrite app_nil_r.
  - simpl. unfold passes.
    destruct (search_check q opp); simpl; [|apply IH].
    destruct (agency_check q opp); simpl; [|apply IH].
    destruct (naics_check q opp); simpl; [|apply IH].
    destruct (active_check q opp); simpl; [|apply IH].
    rewrite IH, <- app_assoc. done.
Qed.

Lemma filter_loop_elem q store opp :
  opp ∈ filter_loop q store [] <-> opp ∈ store /\ passes q opp = true.
Proof.
  rewrite filter_loop_spec. simpl.
  rewrite !list_elem_of_In, filter_In. done.
Qed.

Lemma length_insert_sorted {A} (before : A -> A -> bool) x l :
  length (Py.insert_sorted before x l) = S (length l).
Proof.
  induction l as [|y t IH]; simpl; [done|].
  destruct (before x y); simpl; [done | now rewrite IH].
Qed.

Lemma length_sort {A} (before : A -> A -> bool) l :
  length (Py.sort before l) = length l.
Proof.
  induction l as [|x t IH]; simpl; [done|].
  now rewrite length_insert_sorted, IH.
Qed.

Lemma length_sort_step q l : length (sort_step q l) = length l.
Proof.
  unfold sort_step, sort_records. destruct (sortable (sort_by q)); [|done].
  apply length_sort.
Qed.

Lemma sortable_spec field :
  sortable field = true
  <-> field ∈ ["posted_date"; "response_deadline"; "title"].
Proof.
  unfold sortable. rewrite !orb_true_iff, !String.eqb_eq.
  rewrite !elem_of_cons, elem_of_nil. tauto.
Qed.

(** A slice with bounds [0 <= a <= b] is the window [a, b) of the list. *)
Lemma slice_nonneg {A} (l : list A) a b :
  0 <= a <= b ->
  Py.slice l a b = take (Z.to_nat (b - a)) (drop (Z.to_nat a) l).
Proof.
  intros H. unfold Py.slice, Py.slice_index.
  destruct (Z.ltb_spec a 0); [lia|]. destruct (Z.ltb_spec b 0); [lia|].
  set (n := Z.of_nat (length l)).
  destruct (Z.le_gt_cases n a) as [Hn|Hn].
  - rewrite !(drop_ge l); [now rewrite !take_nil|lia|lia].
  - rewrite (Z.min_l a n) by lia.
    destruct (Z.le_gt_cases b n) as [Hb|Hb].
    + now rewrite (Z.min_l b n) by lia.
    + rewrite (Z.min_r b n) by lia.
      rewrite !take_ge; [done| |]; rewrite length_drop; lia.
Qed.

End QueryFacts.

Section QueryTheorems.

Import InMemory.

(** ** The agency filter *)

(** C2, as stated, fails: the filter "defense" is contained without regard
    to case in the agency of DEMO001, "Department of Defense", and yet the
    record is dropped. *)
Lemma agency_filter_is_not_case_insensitive :
  Py.truthy "defense" = true
  /\ ci_substring "defense" (get demo001 "full_parent_path_name")
  /\ agency_check (with_agency "defense") demo001 = false
  /\ filter_loop (with_agency "defense") [demo001] [] = [].
Proof.
  split; [reflexivity|]. split; [|split; vm_compute; reflexivity].
  apply is_in_spec. vm_compute. reflexivity.
Qed.

(** C2, amended: under a non-empty agency filter, a record that passes the
    other checks is kept if and only if the filter string, as written, is a
    substring of its full_parent_path_name, a missing field counting as the
    empty string. *)
Theorem agency_filter_case_sensitive q store opp :
  agency q <> "" ->
  opp ∈ store ->
  search_check q opp = true ->
  naics_check q opp = true ->
  active_check q opp = true ->
  (opp ∈ filter_loop q store []
   <-> is_substring (agency q) (default "" (opp !! "full_parent_path_name"))).
Proof.
  intros Hne Hin Hs Hn Ha. rewrite filter_loop_elem. unfold passes.
  rewrite Hs, Hn, Ha. simpl.
  unfold agency_check. apply truthy_true in Hne. rewrite Hne. simpl.
  rewrite negb_involutive, !andb_true_r, is_in_spec. unfold get. tauto.
Qed.

Lemma agency_filter_case_sensitive_witness :
  demo001 ∈ filter_loop (with_agency "Defense") MOCK_OPPORTUNITIES []
  <-> is_substring "Defense" (default "" (demo001 !! "full_parent_path_name")).
Proof.
  apply (agency_filter_case_sensitive (with_agency "Defense")
           MOCK_OPPORTUNITIES demo001).
  - simpl. discriminate.
  - unfold MOCK_OPPORTUNITIES. apply list_elem_of_here.
  - vm_compute. reflexivity.
  - vm_compute. reflexivity.
  - vm_compute. reflexivity.
Defined.

(** ** The active filter *)

(** C3: under a non-empty active filter, a record that passes the other
    checks is kept if and only if the filter equals its active field
    without regard to case, so that "yes" never keeps a record whose field
    is "no"; under an empty filter the record is kept. *)
Theorem active_filter_exact q store opp :
  opp ∈ store ->
  search_check q opp = true ->
  agency_check q opp = true ->
  naics_check q opp = true ->
  (active q <> "" ->
     (opp ∈ filter_loop q store []
      <-> ci_equal (active q) (default "" (opp !! "active"))))
  /\ (active q <> "" -> ci_equal (active q) "yes" ->
      ci_equal (default "" (opp !! "active")) "no" ->
      opp ∉ filter_loop q store [])
  /\ (active q = "" -> opp ∈ filter_loop q store []).
Proof.
  intros Hin Hs Hg Hn.
  assert (Hkept : opp ∈ filter_loop q store [] <-> active_check q opp = true).
  { rewrite filter_loop_elem. unfold passes. rewrite Hs, Hg, Hn. simpl. tauto. }
  assert (Hiff : active q <> "" ->
            (active_check q opp = true
             <-> ci_equal (active q) (default "" (opp !! "active")))).
  { intros Hne. unfold active_check, ci_equal, get.
    apply truthy_true in Hne. rewrite Hne. simpl.
    rewrite negb_involutive. apply String.eqb_eq. }
  split; [|split].
  - intros Hne. rewrite Hkept. now apply Hiff.
  - intros Hne Hyes Hno. rewrite Hkept, (Hiff Hne).
    unfold ci_equal in *. rewrite Hyes, Hno. discriminate.
  - intros He. apply Hkept. unfold active_check. now rewrite He.
Qed.

Lemma active_filter_exact_witness :
  ("yES" <> "" ->
     (demo001 ∈ filter_loop (with_active "yES") MOCK_OPPORTUNITIES []
      <-> ci_equal "yES" (default "" (demo001 !! "active"))))
  /\ ("yES" <> "" -> ci_equal "yES" "yes" ->
      ci_equal (default "" (demo001 !! "active")) "no" ->
      demo001 ∉ filter_loop (with_active "yES") MOCK_OPPORTUNITIES [])
  /\ ("yES" = "" ->
      demo001 ∈ filter_loop (with_active "yES") MOCK_OPPORTUNITIES []).
Proof.
  apply (active_filter_exact (with_active "yES") MOCK_OPPORTUNITIES demo001).
  - unfold MOCK_OPPORTUNITIES. apply list_elem_of_here.
  - vm_compute. reflexivity.
  - vm_compute. reflexivity.
  - vm_compute. reflexivity.
Defined.

(** The comparison is on the whole field: a filter that is only contained
    in the field drops the record. *)
Example active_filter_not_containment :
  Py.is_in (Py.lower "es") (Py.lower (get demo001 "active")) = true
  /\ filter_loop (with_active "es") [demo001] [] = [].
Proof. split; vm_compute; reflexivity. Qed.

(** ** Sorting *)

(** C4, as stated, fails: under the sort_by value "relevance" the two demo
    records come back in store order, DEMO001 first, while sorting on
    posted_date in the requested (descending) direction puts DEMO002
    first. *)
Lemma unknown_sort_by_does_not_sort_by_default :
  sortable "relevance" = false
  /\ (exists pg, get_opportunities (with_sort_by "relevance") MOCK_OPPORTUNITIES
                 = Page [demo001; demo002] pg)
  /\ sorted_on "posted_date" "desc" MOCK_OPPORTUNITIES = [demo002; demo001]
  /\ [demo001; demo002] <> [demo002; demo001].
Proof.
  split; [reflexivity|]. split; [|split].
  - eexists. vm_compute. reflexivity.
  - vm_compute. reflexivity.
  - intros H. apply (f_equal (fun l => (fun r => get r "notice_id") <$> head l)) in H.
    vm_compute in H. discriminate.
Qed.

(** C4, amended: under a sort_by value outside the allow-list the engine
    does not error on the sort and does not sort: the filtered records stay
    in store order, and the page is cut from them. *)
Theorem unknown_sort_by_keeps_store_order q store :
  sort_by q ∉ ["posted_date"; "response_deadline"; "title"] ->
  sort_step q (filter_loop q store []) = List.filter (passes q) store
  /\ get_opportunities q store
     = paginate (page q) (per_page q) (List.filter (passes q) store).
Proof.
  intros Hout. assert (Hs : sortable (sort_by q) = false).
  { destruct (sortable (sort_by q)) eqn:E; [|done].
    apply sortable_spec in E. contradiction. }
  unfold get_opportunities, sort_step. rewrite Hs, filter_loop_spec. done.
Qed.

Lemma unknown_sort_by_keeps_store_order_witness :
  sort_step (with_sort_by "relevance")
    (filter_loop (with_sort_by "relevance") MOCK_OPPORTUNITIES [])
  = List.filter (passes (with_sort_by "relevance")) MOCK_OPPORTUNITIES
  /\ get_opportunities (with_sort_by "relevance") MOCK_OPPORTUNITIES
     = paginate 1 20
         (List.filter (passes (with_sort_by "relevance")) MOCK_OPPORTUNITIES).
Proof.
  apply (unknown_sort_by_keeps_store_order (with_sort_by "relevance")
           MOCK_OPPORTUNITIES).
  simpl. rewrite !elem_of_cons, elem_of_nil.
  intros [H|[H|[H|[]]]]; discriminate.
Defined.

End QueryTheorems.

Section PaginationTheorems.

Import InMemory.

Lemma div_lt_inv a b c : 0 < b -> a / b < c -> a < b * c.
Proof.
  intros Hb H. pose proof (Z.mul_succ_div_gt a b Hb) as Hs.
  assert (b * Z.succ (a / b) <= b * c) by (apply Z.mul_le_mono_nonneg_l; lia).
  lia.
Qed.

Lemma ceil_div_spec total per_page :
  0 <= total -> 0 < per_page ->
  is_ceil_div total per_page ((total + per_page - 1) / per_page).
Proof.
  intros Ht Hp. unfold is_ceil_div.
  pose proof (Z.mul_div_le (total + per_page - 1) per_page Hp).
  pose proof (Z.mul_succ_div_gt (total + per_page - 1) per_page Hp).
  lia.
Qed.

(** ** Pagination outside the range of pages *)

(** C5, as stated, fails: with per_page = 0 the computation of total_pages
    divides by zero and the handler answers with the error object. *)
Lemma per_page_zero_is_an_error :
  get_opportunities (with_page 1 0) MOCK_OPPORTUNITIES = Error500.
Proof. vm_compute. reflexivity. Qed.

(** The error does not depend on the store or on the page. *)
Lemma per_page_zero_always_errors q store :
  per_page q = 0 -> get_opportunities q store = Error500.
Proof. intros H. unfold get_opportunities, paginate. now rewrite H. Qed.

(** A negative page or a negative per_page is read by the slice as an
    index from the end: the window can hold rows, and total_pages can be
    negative. *)
Example negative_page_window :
  exists pg, get_opportunities (with_page (-1) 1) MOCK_OPPORTUNITIES
             = Page [demo002] pg.
Proof. eexists. vm_compute. reflexivity. Qed.

Example negative_per_page_window :
  exists pg,
    get_opportunities (with_page 1 (-1))
      (MOCK_OPPORTUNITIES ++ MOCK_OPPORTUNITIES)
    = Page [demo002; demo002; demo001] pg
    /\ pg_total_pages pg = -2.
Proof. eexists. vm_compute. split; reflexivity. Qed.

(** C5, amended: for every record collection and every positive per_page
    the listing does not error and its total and total_pages are
    non-negative; when the page lies beyond the last page, the row window
    is empty. *)
Theorem page_beyond_last_is_empty q store :
  0 < per_page q ->
  exists rows pg,
    get_opportunities q store = Page rows pg
    /\ 0 <= pg_total pg
    /\ 0 <= pg_total_pages pg
    /\ (pg_total_pages pg < page q -> rows = []).
Proof.
  intros Hp. unfold get_opportunities, paginate.
  set (sorted := sort_step q (filter_loop q store [])).
  destruct (Z.eqb_spec (per_page q) 0) as [E|_]; [lia|].
  eexists _, _. split; [reflexivity|]. simpl.
  assert (Hn : 0 <= Z.of_nat (length sorted)) by lia.
  assert (Htp : 0 <= (Z.of_nat (length sorted) + per_page q - 1) / per_page q).
  { apply Z.div_pos; lia. }
  split; [done|]. split; [done|].
  intros Hlt. apply div_lt_inv in Hlt; [|done].
  rewrite slice_nonneg by nia.
  rewrite drop_ge; [apply take_nil|]. nia.
Qed.

Lemma page_beyond_last_is_empty_witness :
  exists rows pg,
    get_opportunities (with_page 7 5) MOCK_OPPORTUNITIES = Page rows pg
    /\ 0 <= pg_total pg
    /\ 0 <= pg_total_pages pg
    /\ (pg_total_pages pg < 7 -> rows = []).
Proof.
  apply (page_beyond_last_is_empty (with_page 7 5) MOCK_OPPORTUNITIES).
  simpl. lia.
Defined.

(** ** Pagination inside the range *)

(** C6: for positive page and per_page the listing returns the window
    [(page-1)*per_page, page*per_page) of the filtered and sorted records;
    total is the number of filtered records, total_pages is the ceiling of
    total / per_page (0 when total is 0), has_next is page < total_pages,
    has_prev is page > 1, and at most per_page rows are returned. *)
Theorem pagination_window q store :
  0 < page q -> 0 < per_page q ->
  exists rows pg,
    get_opportunities q store = Page rows pg
    /\ (forall i : nat,
          rows !! i
          = if decide (Z.of_nat i < per_page q)
            then sort_step q (List.filter (passes q) store)
                   !! Z.to_nat ((page q - 1) * per_page q + Z.of_nat i)
            else None)
    /\ pg_total pg = Z.of_nat (length (List.filter (passes q) store))
    /\ is_ceil_div (pg_total pg) (per_page q) (pg_total_pages pg)
    /\ (pg_total pg = 0 -> pg_total_pages pg = 0)
    /\ pg_has_next pg = bool_decide (page q < pg_total_pages pg)
    /\ pg_has_prev pg = bool_decide (1 < page q)
    /\ Z.of_nat (length rows) <= per_page q.
Proof.
  intros Hpage Hp. unfold get_opportunities, paginate.
  rewrite filter_loop_spec. simpl.
  set (filtered := List.filter (passes q) store).
  set (sorted := sort_step q filtered).
  destruct (Z.eqb_spec (per_page q) 0) as [E|_]; [lia|].
  eexists _, _. split; [reflexivity|]. simpl.
  assert (Hlen : length sorted = length filtered) by apply length_sort_step.
  rewrite slice_nonneg by nia.
  replace ((page q - 1) * per_page q + per_page q - (page q - 1) * per_page q)
    with (per_page q) by lia.
  repeat split.
  - intros i. destruct (decide (Z.of_nat i < per_page q)) as [Hi|Hi].
    + rewrite lookup_take_lt by lia. rewrite lookup_drop. f_equal. nia.
    + apply lookup_take_ge. lia.
  - now rewrite Hlen.
  - rewrite Hlen. apply ceil_div_spec; lia.
  - rewrite Hlen. apply ceil_div_spec; lia.
  - rewrite Hlen. intros H0. rewrite H0. apply Z.div_small. lia.
  - destruct (Z.ltb_spec (page q) ((Z.of_nat (length sorted) + per_page q - 1) / per_page q));
      symmetry; [apply bool_decide_eq_true | apply bool_decide_eq_false]; lia.
  - destruct (Z.ltb_spec 1 (page q));
      symmetry; [apply bool_decide_eq_true | apply bool_decide_eq_false]; lia.
  - rewrite length_take. lia.
Qed.

Lemma pagination_window_witness :
  exists rows pg,
    get_opportunities (with_page 2 1) MOCK_OPPORTUNITIES = Page rows pg
    /\ (forall i : nat,
          rows !! i
          = if decide (Z.of_nat i < 1)
            then sort_step (with_page 2 1)
                   (List.filter (passes (with_page 2 1)) MOCK_OPPORTUNITIES)
                   !! Z.to_nat ((2 - 1) * 1 + Z.of_nat i)
            else None)
    /\ pg_total pg
       = Z.of_nat (length (List.filter (passes (with_page 2 1)) MOCK_OPPORTUNITIES))
    /\ is_ceil_div (pg_total pg) 1 (pg_total_pages pg)
    /\ (pg_total pg = 0 -> pg_total_pages pg = 0)
    /\ pg_has_next pg = bool_decide (2 < pg_total_pages pg)
    /\ pg_has_prev pg = bool_decide (1 < 2)
    /\ Z.of_nat (length rows) <= 1.
Proof.
  apply (pagination_window (with_page 2 1) MOCK_OPPORTUNITIES); simpl; lia.
Defined.

(** The scenario of 25 records, per_page 10, page 3: five rows, no next
    page, a previous page. *)
Example pagination_scenario :
  exists rows pg,
    get_opportunities (with_page 3 10) (replicate 25 demo001) = Page rows pg
    /\ length rows = 5%nat /\ pg_total pg = 25 /\ pg_total_pages pg = 3
    /\ pg_has_next pg = false /\ pg_has_prev pg = true.
Proof. eexists _, _. vm_compute. repeat split; reflexivity. Qed.

End PaginationTheorems.

(** * The evaluation engine *)

Section EvaluationTheorems.

Variable fromisoformat : string -> option Datetime.datetime.
Variable now : Z.

(** Each check appends its tags to the list it is given. *)
Lemma check_deadline_app opp recs :
  check_deadline fromisoformat now opp recs
  = recs ++ check_deadline fromisoformat now opp [].
Proof.
  unfold check_deadline. destruct (opp !! "response_deadline") as [s|];
    [|now rewrite app_nil_r].
  destruct (Py.truthy s); [|now rewrite app_nil_r].
  destruct (days_until fromisoformat now s) as [d|]; [|done].
  destruct (d <? 7); [done|]. destruct (d <? 14); done.
Qed.

Lemma check_set_aside_app opp recs :
  check_set_aside opp recs = recs ++ check_set_aside opp [].
Proof.
  unfold check_set_aside. cbv zeta.
  repeat match goal with
         | |- context [if ?b then _ else _] => destruct b
         end; simpl; now rewrite ?app_nil_r.
Qed.

Lemma check_naics_app opp recs :
  check_naics opp recs = recs ++ check_naics opp [].
Proof.
  unfold check_naics. cbv zeta.
  destruct (Py.truthy _); simpl; now rewrite ?app_nil_r.
Qed.

Lemma check_active_app opp recs :
  check_active opp recs = recs ++ check_active opp [].
Proof.
  unfold check_active. cbv zeta.
  repeat match goal with
         | |- context [if ?b then _ else _] => destruct b
         end; simpl; now rewrite ?app_nil_r.
Qed.

(** Each check contributes at most one tag, of its own number. *)
Lemma check_deadline_number opp :
  sublist (check_number <$> check_deadline fromisoformat now opp []) [1%nat].
Proof.
  unfold check_deadline. destruct (opp !! "response_deadline") as [s|];
    [|apply sublist_nil_l].
  destruct (Py.truthy s); [|apply sublist_nil_l].
  destruct (days_until fromisoformat now s) as [d|]; [|done].
  destruct (d <? 7); [done|]. destruct (d <? 14); done.
Qed.

Lemma check_set_aside_number opp :
  sublist (check_number <$> check_set_aside opp []) [2%nat].
Proof.
  unfold check_set_aside. cbv zeta.
  repeat match goal with
         | |- context [if ?b then _ else _] => destruct b
         end; simpl; try done; apply sublist_nil_l.
Qed.

Lemma check_naics_number opp :
  sublist (check_number <$> check_naics opp []) [3%nat].
Proof.
  unfold check_naics. cbv zeta.
  destruct (Py.truthy _); simpl; try done; apply sublist_nil_l.
Qed.

Lemma check_active_number opp :
  sublist (check_number <$> check_active opp []) [4%nat].
Proof.
  unfold check_active. cbv zeta.
  repeat match goal with
         | |- context [if ?b then _ else _] => destruct b
         end; simpl; try done; apply sublist_nil_l.
Qed.

(** The list of app.py is the tags of the four checks, in the order of the
    checks. *)
Lemma recommendations_decompose opp :
  generate_evaluation_recommendations fromisoformat now opp
  = check_deadline fromisoformat now opp [] ++ check_set_aside opp []
    ++ check_naics opp [] ++ check_active opp [].
Proof.
  unfold generate_evaluation_recommendations. cbv zeta.
  rewrite check_active_app, check_naics_app, check_set_aside_app.
  now rewrite <- !app_assoc.
Qed.

(** The list of app_render.py is the tags of three checks: deadline,
    active, NAICS. *)
Lemma render_recommendations_decompose opp :
  render_generate_evaluation_recommendations fromisoformat now opp
  = check_deadline fromisoformat now opp [] ++ check_active opp []
    ++ check_naics opp [].
Proof.
  unfold render_generate_evaluation_recommendations. cbv zeta.
  rewrite check_naics_app, check_active_app.
  now rewrite <- !app_assoc.
Qed.

(** A deadline that parses to a naive date in the past is tagged urgent,
    with a negative number of days. *)
Lemma naive_expired_deadline_is_urgent opp s deadline_date :
  opp !! "response_deadline" = Some s ->
  s <> "" ->
  fromisoformat (Py.replace_Z "+00:00" s) = Some deadline_date ->
  Datetime.utcoffset deadline_date = None ->
  Datetime.wall_us deadline_date < now ->
  exists d, d < 0 /\ check_deadline fromisoformat now opp [] = [Urgent d].
Proof.
  intros Hs Hne Hp Hnaive Hpast. unfold check_deadline, days_until.
  apply truthy_true in Hne. rewrite Hs, Hne, Hp. simpl.
  unfold Datetime.sub. rewrite Hnaive. simpl.
  set (d := Datetime.days (Datetime.wall_us deadline_date - now)).
  assert (Hd : d < 0).
  { unfold d, Datetime.days, Datetime.us_per_day.
    apply Z.div_lt_upper_bound; lia. }
  exists d. split; [done|].
  destruct (Z.ltb_spec d 7); [done | lia].
Qed.

(** A deadline that parses to a timezone-aware date cannot be subtracted
    from the naive clock reading: it is tagged as of unclear format,
    whether or not it has passed. *)
Lemma aware_deadline_is_unclear opp s deadline_date offset :
  opp !! "response_deadline" = Some s ->
  s <> "" ->
  fromisoformat (Py.replace_Z "+00:00" s) = Some deadline_date ->
  Datetime.utcoffset deadline_date = Some offset ->
  check_deadline fromisoformat now opp [] = [FormatUnclear].
Proof.
  intros Hs Hne Hp Haware. unfold check_deadline, days_until.
  apply truthy_true in Hne. rewrite Hs, Hne, Hp. simpl.
  unfold Datetime.sub. now rewrite Haware.
Qed.

End EvaluationTheorems.

(** The copy of the engine in app_render.py at the sample record, which
    has a set-aside, a NAICS code and an active flag: no set-aside tag, and
    the active tag (check 4) ahead of the NAICS tag (check 3); the engine
    of app.py gives the four tags in the order of the checks. *)
Example render_variant_breaks_order :
  render_generate_evaluation_recommendations Datetime.fromisoformat_basic
    sample_now set_aside_sample
  = [Urgent 5; CurrentlyActive; NaicsCode "541511"]
  /\ generate_evaluation_recommendations Datetime.fromisoformat_basic
       sample_now set_aside_sample
     = [Urgent 5; SmallBusiness; NaicsCode "541511"; CurrentlyActive].
Proof. split; vm_compute; reflexivity. Qed.

Section CheckOrder.

Lemma sublist_singleton_inv {A} (l : list A) x :
  sublist l [x] -> l = [] \/ l = [x].
Proof.
  intros H. inversion H as [|? ? ? H'|? ? ? H']; subst.
  - right. apply sublist_nil_r in H'. now subst.
  - left. now apply sublist_nil_r in H'.
Qed.

Lemma active_before_naics_unordered (d : list nat) :
  sublist d [1%nat] -> ~ sublist (d ++ [4; 3]%nat) [1; 2; 3; 4]%nat.
Proof.
  intros Hd H. apply sublist_singleton_inv in Hd as [->| ->]; simpl in H;
    repeat match goal with
           | H : sublist _ _ |- _ => inversion H; clear H; subst
           end.
Qed.

End CheckOrder.

(** C7: the engine of app.py does what the claim says: its list is the
    tag of the deadline check (1), then that of the set-aside check (2),
    then that of the NAICS check (3), then that of the active check (4),
    each check giving at most one tag, a function of the record and the
    clock.  The copy of the engine in app_render.py does not: its list is
    the tag of the deadline check, then that of the active check (4), then
    that of the NAICS check (3); it never holds a set-aside tag, and for
    every record with a NAICS code and an active flag of yes or no the tag
    of check 4 stands ahead of the tag of check 3.  So it is at the sample
    record, which also has a set-aside. *)
Theorem render_copy_breaks_check_order fromisoformat now opp :
  generate_evaluation_recommendations fromisoformat now opp
  = check_deadline fromisoformat now opp [] ++ check_set_aside opp []
    ++ check_naics opp [] ++ check_active opp []
  /\ sublist (check_number <$> check_deadline fromisoformat now opp [])
       [1%nat]
  /\ sublist (check_number <$> check_set_aside opp []) [2%nat]
  /\ sublist (check_number <$> check_naics opp []) [3%nat]
  /\ sublist (check_number <$> check_active opp []) [4%nat]
  /\ render_generate_evaluation_recommendations fromisoformat now opp
     = check_deadline fromisoformat now opp [] ++ check_active opp []
       ++ check_naics opp []
  /\ (forall r,
        r ∈ render_generate_evaluation_recommendations fromisoformat now opp ->
        check_number r <> 2%nat)
  /\ (get opp "naics_code" <> "" ->
      Py.lower (get opp "active") = "yes"
      \/ Py.lower (get opp "active") = "no" ->
      ~ sublist
          (check_number <$>
             render_generate_evaluation_recommendations fromisoformat now opp)
          [1; 2; 3; 4]%nat)
  /\ render_generate_evaluation_recommendations Datetime.fromisoformat_basic
       sample_now set_aside_sample
     = [Urgent 5; CurrentlyActive; NaicsCode "541511"]
  /\ generate_evaluation_recommendations Datetime.fromisoformat_basic
       sample_now set_aside_sample
     = [Urgent 5; SmallBusiness; NaicsCode "541511"; CurrentlyActive].
Proof.
  pose proof (check_deadline_number fromisoformat now opp) as H1.
  pose proof (check_naics_number opp) as H3.
  pose proof (check_active_number opp) as H4.
  split; [apply recommendations_decompose|].
  split; [exact H1|]. split; [apply check_set_aside_number|].
  split; [exact H3|]. split; [exact H4|].
  split; [apply render_recommendations_decompose|].
  split; [|split; [|split; vm_compute; reflexivity]].
  - intros r Hr Hn. rewrite render_recommendations_decompose in Hr.
    assert (Hin : check_number r ∈ [1; 4; 3]%nat).
    { apply (list_elem_of_fmap_2 check_number) in Hr.
      rewrite !fmap_app in Hr.
      eapply elem_of_sublist; [exact Hr|].
      change [1; 4; 3]%nat with ([1] ++ [4] ++ [3])%nat.
      repeat apply sublist_app; assumption. }
    rewrite Hn in Hin.
    repeat (apply elem_of_cons in Hin as [Hin|Hin]; [discriminate|]).
    now apply elem_of_nil in Hin.
  - intros Hnaics Hactive.
    rewrite render_recommendations_decompose, !fmap_app.
    assert (Hn : check_number <$> check_naics opp [] = [3%nat]).
    { unfold check_naics. cbv zeta. apply truthy_true in Hnaics.
      now rewrite Hnaics. }
    assert (Ha : check_number <$> check_active opp [] = [4%nat]).
    { unfold check_active. cbv zeta.
      assert (Ht : Py.truthy (get opp "active") = true).
      { apply truthy_true. intros He. rewrite He in Hactive.
        destruct Hactive; discriminate. }
      rewrite Ht. destruct Hactive as [-> | ->]; reflexivity. }
    rewrite Hn, Ha. now apply active_before_naics_unordered.
Qed.

(** C9 at DEMO001, whose deadline 2024-02-15T17:00:00Z carries the UTC
    suffix: at every clock reading, also long after the deadline, the
    engine reports the format as unclear and emits no urgent tag. *)
Theorem utc_deadline_reported_unclear now :
  generate_evaluation_recommendations Datetime.fromisoformat_basic now demo001
  = [FormatUnclear; NaicsCode "541511"; CurrentlyActive].
Proof. vm_compute. reflexivity. Qed.

(** The same deadline written without the suffix is tagged urgent once it
    has passed, with the negative number of days. *)
Example naive_deadline_one_year_later :
  check_deadline Datetime.fromisoformat_basic
    (sample_now + 366 * Datetime.us_per_day) set_aside_sample []
  = [Urgent (-361)]
  /\ message (Urgent (-361)) = "URGENT: Response deadline is in -361 days".
Proof. split; vm_compute; reflexivity. Qed.

(** The parser on further shapes of [isoformat]: a time without seconds,
    a fraction of a second with an offset, and a date that does not
    exist. *)
Example isoformat_shapes :
  Datetime.fromisoformat_basic "2024-02-15T17:00"
  = Datetime.fromisoformat_basic "2024-02-15T17:00:00"
  /\ (Datetime.utcoffset <$>
        Datetime.fromisoformat_basic "2024-02-15 17:00:00.250+05:30")
     = Some (Some 19800000000)
  /\ (Datetime.wall_us <$>
        Datetime.fromisoformat_basic "2024-02-15 17:00:00.250+05:30")
     = (fun d => Datetime.wall_us d + 250000) <$>
         Datetime.fromisoformat_basic "2024-02-15T17:00:00"
  /\ Datetime.fromisoformat_basic "2024-02-15T17:00:00" <> None
  /\ Datetime.fromisoformat_basic "2024-02-30" = None.
Proof. repeat split; vm_compute; try reflexivity. discriminate. Qed.

(** * The text extraction engine *)

Section TextFacts.

Lemma text_starts_with_spec needle hay :
  Text.starts_with needle hay = true <-> exists post, hay = needle ++ post.
Proof.
  revert hay. induction needle as [|a n IH]; intros hay; simpl.
  - split; [intros _; now exists hay | done].
  - destruct hay as [|b h].
    + split; [done | intros [post H]; discriminate].
    + destruct (N.eqb_spec a b) as [->|Hne].
      * rewrite IH. split; intros [post H]; exists post; simpl in *; congruence.
      * split; [done | intros [post H]; simpl in H; congruence].
Qed.

Lemma text_contains_spec needle hay :
  Text.contains needle hay = true <->
  exists pre post, hay = pre ++ needle ++ post.
Proof.
  induction hay as [|b h IH]; simpl.
  - rewrite orb_false_r, text_starts_with_spec. split.
    + intros [post H]. now exists [], post.
    + intros (pre & post & H). destruct pre; [|discriminate].
      now exists post.
  - rewrite orb_true_iff, text_starts_with_spec, IH. split.
    + intros [[post H]|(pre & post & H)].
      * now exists [], post.
      * exists (b :: pre), post. simpl. congruence.
    + intros (pre & post & H). destruct pre as [|c pre]; simpl in H.
      * left. now exists post.
      * right. exists pre, post. congruence.
Qed.

Lemma text_is_in_spec needle hay :
  Text.is_in needle hay = true <-> exists i, stands_at needle hay i.
Proof.
  unfold Text.is_in, stands_at. rewrite text_contains_spec. split.
  - intros (pre & post & H). exists (length pre), pre, post. done.
  - intros (i & pre & post & H & _). now exists pre, post.
Qed.

(** [find_from] returns the first index at which the needle stands, counted
    from [i], and -1 exactly when there is none. *)
Lemma text_find_from_spec needle hay i :
  (Text.contains needle hay = false /\ Text.find_from needle hay i = -1)
  \/ (exists k : nat,
        Text.find_from needle hay i = i + Z.of_nat k
        /\ stands_at needle hay k
        /\ forall j, stands_at needle hay j -> (k <= j)%nat).
Proof.
  revert i. induction hay as [|b h IH]; intros i; simpl.
  - destruct (Text.starts_with needle []) eqn:E.
    + right. exists 0%nat. apply text_starts_with_spec in E as [post E].
      split; [lia|]. split; [now exists [], post | intros; lia].
    + left. done.
  - destruct (Text.starts_with needle (b :: h)) eqn:E.
    + right. exists 0%nat. apply text_starts_with_spec in E as [post E].
      split; [lia|]. split; [now exists [], post | intros; lia].
    + simpl.
      destruct (IH (i + 1))
        as [[Hc Hf]|(k & Hf & (pre & post & Hh & Hl) & Hmin)].
      * left. done.
      * right. exists (S k). split; [lia|]. split.
        -- exists (b :: pre), post. simpl. split; congruence.
        -- intros j (pre' & post' & H' & <-).
           destruct pre' as [|c pre']; simpl in H'.
           ++ exfalso.
              assert (Text.starts_with needle (b :: h) = true); [|congruence].
              apply text_starts_with_spec. now exists post'.
           ++ simpl. apply le_n_S. apply Hmin. exists pre', post'.
              split; congruence.
Qed.

Lemma text_find_present needle hay :
  Text.is_in needle hay = true ->
  exists i : nat,
    Text.find needle hay = Z.of_nat i
    /\ stands_at needle hay i
    /\ forall j, stands_at needle hay j -> (i <= j)%nat.
Proof.
  unfold Text.is_in, Text.find. intros H.
  destruct (text_find_from_spec needle hay 0)
    as [[Hc _]|(k & Hf & Hst & Hmin)]; [congruence|].
  exists k. split; [lia|]. done.
Qed.

Lemma stands_at_bound needle hay i :
  stands_at needle hay i -> (i + length needle <= length hay)%nat.
Proof.
  intros (pre & post & H & <-). rewrite H, !length_app. lia.
Qed.

(** Where a string stands, each of its prefixes stands. *)
Lemma stands_at_prefix k extra hay i :
  stands_at (k ++ extra) hay i -> stands_at k hay i.
Proof.
  intros (pre & post & H & Hl). exists pre, (extra ++ post).
  split; [|done]. now rewrite H, <- app_assoc.
Qed.

End TextFacts.

Section LowerFacts.

Variable lower_cp : N -> list N.

Lemma lower_app a b :
  Text.lower lower_cp (a ++ b)
  = Text.lower lower_cp a ++ Text.lower lower_cp b.
Proof. unfold Text.lower. now rewrite fmap_app, concat_app. Qed.

Lemma lower_cons c s :
  Text.lower lower_cp (c :: s) = lower_cp c ++ Text.lower lower_cp s.
Proof. reflexivity. Qed.

Lemma lower_take s n :
  keeps_length lower_cp s ->
  Text.lower lower_cp (take n s) = take n (Text.lower lower_cp s).
Proof.
  intros Hs. revert n. induction Hs as [|c s Hc Hs IH]; intros n.
  - now destruct n.
  - destruct n as [|n]; [done|]. cbn [take drop]. rewrite !lower_cons.
    destruct (lower_cp c) as [|x [|y l]]; try discriminate.
    cbn [app take drop]. now rewrite IH.
Qed.

Lemma lower_drop s n :
  keeps_length lower_cp s ->
  Text.lower lower_cp (drop n s) = drop n (Text.lower lower_cp s).
Proof.
  intros Hs. revert n. induction Hs as [|c s Hc Hs IH]; intros n.
  - now destruct n.
  - destruct n as [|n]; [done|]. cbn [take drop]. rewrite !lower_cons.
    destruct (lower_cp c) as [|x [|y l]]; try discriminate.
    cbn [app take drop]. now rewrite IH.
Qed.

Lemma length_lower_keeps s :
  keeps_length lower_cp s -> length (Text.lower lower_cp s) = length s.
Proof.
  induction 1 as [|c s Hc Hs IH]; [done|].
  rewrite lower_cons, length_app, Hc, IH. done.
Qed.

(** In a description that lowering keeps character for character, the
    places where a keyword stands without regard to case are the places
    where it stands in the lowered description. *)
Lemma matches_at_lowered keyword description i :
  keeps_length lower_cp description ->
  matches_at lower_cp keyword description i
  <-> stands_at keyword (Text.lower lower_cp description) i.
Proof.
  intros Hk. split.
  - intros (pre & m & post & -> & Hl & Hm).
    exists (Text.lower lower_cp pre), (Text.lower lower_cp post).
    rewrite !lower_app, Hm. split; [done|].
    apply Forall_app in Hk as [Hpre _]. now rewrite length_lower_keeps.
  - intros (pre' & post' & Hd & Hl).
    pose proof (length_lower_keeps description Hk) as Hlen.
    rewrite Hd, !length_app in Hlen.
    exists (take i description), (take (length keyword) (drop i description)),
      (drop (length keyword) (drop i description)).
    split; [now rewrite !take_drop|]. split; [rewrite length_take; lia|].
    rewrite lower_take by now apply Forall_drop.
    rewrite lower_drop by done. rewrite Hd, <- Hl.
    rewrite drop_app_length. now rewrite take_app_length.
Qed.

Lemma ci_contains_is_in keyword description :
  keeps_length lower_cp description ->
  ci_contains lower_cp keyword description
  <-> Text.is_in keyword (Text.lower lower_cp description) = true.
Proof.
  intros Hk. rewrite text_is_in_spec. unfold ci_contains.
  split; intros [i Hi]; exists i; now apply matches_at_lowered.
Qed.

Lemma first_match_unique keyword description i j :
  first_match lower_cp keyword description i ->
  first_match lower_cp keyword description j -> i = j.
Proof.
  intros [Hi Hmi] [Hj Hmj]. specialize (Hmi _ Hj). specialize (Hmj _ Hi). lia.
Qed.

Lemma no_keyword_in_empty keyword :
  keyword <> [] -> ~ ci_contains lower_cp keyword [].
Proof.
  intros Hne (i & pre & m & post & H & _ & Hm).
  symmetry in H. apply app_eq_nil in H as [_ H].
  apply app_eq_nil in H as [-> _]. now apply Hne.
Qed.

End LowerFacts.

Section ExtractionFacts.

Variable lower_cp : N -> list N.

(** The slice cut by [scan_keyword] at the index of a match is the window
    of the specification. *)
Lemma slice_window (before after : nat) description keyword (i : nat) :
  (i + length keyword <= length description)%nat ->
  Py.slice description
    (Z.max 0 (Z.of_nat i - Z.of_nat before))
    (Z.min (Text.len description)
       (Z.of_nat i + Text.len keyword + Z.of_nat after))
  = window before after description keyword i.
Proof.
  intros Hb. unfold window, Text.len.
  rewrite slice_nonneg by lia. f_equal; [lia|]. f_equal. lia.
Qed.

(** One turn of the loop appends the contribution of its keyword. *)
Lemma scan_keyword_spec (before after : nat) description found keyword :
  keeps_length lower_cp description ->
  exists c,
    scan_keyword (Z.of_nat before) (Z.of_nat after) description
      (Text.lower lower_cp description) found keyword = found ++ c
    /\ contribution lower_cp before after description keyword c.
Proof.
  intros Hk. unfold scan_keyword, contribution.
  destruct (Text.is_in keyword (Text.lower lower_cp description)) eqn:E.
  - destruct (text_find_present _ _ E) as (i & Hf & Hst & Hmin).
    rewrite Hf. destruct (Z.eqb_spec (Z.of_nat i) (-1)) as [?|_]; [lia|].
    simpl. eexists. split; [reflexivity|]. right. exists i. split.
    + split; [now apply matches_at_lowered|].
      intros j Hj. apply Hmin. now apply matches_at_lowered.
    + do 2 f_equal. apply slice_window.
      apply stands_at_bound in Hst. now rewrite length_lower_keeps in Hst.
  - exists []. split; [now rewrite app_nil_r|]. left. split; [|done].
    rewrite ci_contains_is_in by done. congruence.
Qed.

Lemma scan_loop_spec (before after : nat) description keywords found :
  keeps_length lower_cp description ->
  exists per_keyword,
    Forall2 (contribution lower_cp before after description)
      keywords per_keyword
    /\ fold_left
         (scan_keyword (Z.of_nat before) (Z.of_nat after) description
            (Text.lower lower_cp description)) keywords found
       = found ++ concat per_keyword.
Proof.
  intros Hk. revert found.
  induction keywords as [|k ks IH]; intros found.
  - exists []. split; [constructor|]. simpl. now rewrite app_nil_r.
  - destruct (scan_keyword_spec before after description found k Hk)
      as (c & Hc & Hcontrib).
    destruct (IH (found ++ c)) as (per & Hper & Hfold).
    exists (c :: per). split; [now constructor|].
    simpl. rewrite Hc, Hfold. now rewrite <- app_assoc.
Qed.

(** The shared body meets the specification for any list of non-empty
    keywords, on a description that lowering keeps character for
    character. *)
Lemma extract_contexts_spec keywords (before after cap : nat) description :
  Forall (fun k => k <> []) keywords ->
  keeps_length lower_cp description ->
  extraction_spec lower_cp keywords before after cap description
    (extract_contexts lower_cp keywords (Z.of_nat before) (Z.of_nat after)
       (Z.of_nat cap) description).
Proof.
  intros Hall Hk. unfold extraction_spec, extract_contexts.
  destruct description as [|c0 d0] eqn:Ed.
  - simpl. split; [|split; [lia|done]].
    exists ((fun _ => []) <$> keywords). split.
    + induction Hall as [|k ks Hne _ IH]; simpl; constructor; [|done].
      left. split; [|done]. now apply no_keyword_in_empty.
    + assert (H : forall l : list Text.text,
                concat ((fun _ => @nil Text.text) <$> l) = []).
      { induction l; simpl; auto. }
      rewrite H. now rewrite take_nil.
  - rewrite <- Ed in *. replace (negb (Text.truthy description)) with false
      by now rewrite Ed.
    destruct (scan_loop_spec before after description keywords [] Hk)
      as (per & Hper & Hfold).
    rewrite Hfold. simpl. rewrite slice_nonneg by lia.
    rewrite drop_0, Z.sub_0_r, Nat2Z.id.
    split; [now exists per|]. split; [|rewrite Ed; discriminate].
    rewrite length_take. lia.
Qed.

Lemma deliverable_keywords_nonempty :
  Forall (fun k : Text.text => k <> []) deliverable_keywords.
Proof.
  unfold deliverable_keywords. rewrite Forall_fmap.
  repeat (constructor; [discriminate|]). constructor.
Qed.

Lemma requirement_keywords_nonempty :
  Forall (fun k : Text.text => k <> []) requirement_keywords.
Proof.
  unfold requirement_keywords. rewrite Forall_fmap.
  repeat (constructor; [discriminate|]). constructor.
Qed.

(** Where a keyword occurs, its contribution is among the contexts. *)
Lemma contribution_of_present (before after : nat) description keywords per k :
  Forall2 (contribution lower_cp before after description) keywords per ->
  k ∈ keywords ->
  ci_contains lower_cp k description ->
  exists i,
    first_match lower_cp k description i
    /\ Text.strip (window before after description k i) ∈ concat per.
Proof.
  induction 1 as [|k' p ks ps Hk _ IH]; intros Hin Hci.
  - now apply elem_of_nil in Hin.
  - apply elem_of_cons in Hin as [->|Hin].
    + destruct Hk as [[Habs _]|(i & Hi & ->)]; [contradiction|].
      exists i. split; [done|]. simpl. apply list_elem_of_here.
    + destruct (IH Hin Hci) as (i & Hi & Hmem). exists i. split; [done|].
      simpl. apply elem_of_app. now right.
Qed.

(** The basic mapping keeps a text without U+0130 character for
    character. *)
Lemma keeps_length_basic s :
  forallb (fun c => negb (c =? 0x130)%N) s = true ->
  keeps_length Text.lower_cp_basic s.
Proof.
  intros H. rewrite forallb_forall in H. apply Forall_forall. intros c Hc.
  apply list_elem_of_In in Hc. specialize (H c Hc).
  apply negb_true_iff in H. unfold Text.lower_cp_basic. rewrite H.
  now destruct (_ || _).
Qed.

End ExtractionFacts.

Section ExtractionTheorems.

(** On a description that lowering keeps character for character, each
    extraction visits its keywords in the order of its list; a keyword
    that occurs in the description, without regard to case, contributes
    exactly one context, the stripped window around its first occurrence,
    clamped to the bounds of the description; a keyword that does not
    occur contributes none; the result holds at most 10 contexts
    (deliverables, windows of 50) or 15 (proposal requirements, windows of
    100); an empty description gives the empty result. *)
Theorem extraction_meets_spec lower_cp description :
  keeps_length lower_cp description ->
  extraction_spec lower_cp deliverable_keywords 50 50 10 description
    (extract_deliverables_from_description lower_cp description)
  /\ extraction_spec lower_cp requirement_keywords 100 100 15 description
       (extract_proposal_requirements_from_description lower_cp description).
Proof.
  intros Hk. split.
  - apply (extract_contexts_spec lower_cp deliverable_keywords 50 50 10);
      [apply deliverable_keywords_nonempty | exact Hk].
  - apply (extract_contexts_spec lower_cp requirement_keywords 100 100 15);
      [apply requirement_keywords_nonempty | exact Hk].
Qed.

Lemma extraction_meets_spec_witness :
  extraction_spec Text.lower_cp_basic deliverable_keywords 50 50 10 ships
    (extract_deliverables_from_description Text.lower_cp_basic ships)
  /\ extraction_spec Text.lower_cp_basic requirement_keywords 100 100 15 ships
       (extract_proposal_requirements_from_description Text.lower_cp_basic
          ships).
Proof.
  apply (extraction_meets_spec Text.lower_cp_basic ships).
  apply keeps_length_basic. vm_compute. reflexivity.
Defined.

(** A keyword that occurs twice contributes the context of its first
    occurrence only. *)
Example repeated_keyword_one_context :
  extract_deliverables_from_description Text.lower_cp_basic
    (Text.of_str "First plan. Second plan.")
  = [Text.of_str "First plan. Second plan."].
Proof. vm_compute. reflexivity. Qed.

(** Behind [n] capital I with dot above, a word that lowers to the keyword
    is the first match of the keyword, at index [n]. *)
Lemma first_match_behind_dotted (n : nat) (w : Text.text) c0 k0 :
  c0 <> 0x69%N ->
  Text.lower Text.lower_cp_basic w = c0 :: k0 ->
  first_match Text.lower_cp_basic (c0 :: k0) (replicate n 0x130%N ++ w) n.
Proof.
  intros Hc Hw. split.
  - exists (replicate n 0x130%N), w, []. rewrite app_nil_r.
    split; [done|]. split; [apply length_replicate | done].
  - intros j (pre & m & post & Hd & <- & Hm).
    destruct (Nat.le_gt_cases n (length pre)) as [|Hlt]; [done|]. exfalso.
    destruct m as [|c m]; [discriminate|].
    assert (Hc' : (replicate n 0x130%N ++ w) !! length pre = Some c).
    { rewrite Hd, lookup_app_r by lia. now rewrite Nat.sub_diag. }
    rewrite lookup_app_l in Hc' by (rewrite length_replicate; lia).
    apply lookup_replicate in Hc' as [-> _].
    rewrite lower_cons in Hm.
    change (Text.lower_cp_basic 0x130%N) with [0x69; 0x307]%N in Hm.
    injection Hm as Hx _. congruence.
Qed.

(** C8 at a description of sixty capital I with dot above (U+0130) and the
    word "plan", 64 characters.  Its lowered form has 124 characters, and
    "plan" is found there at index 120; the slice of the description from
    index 70 is empty, so the extraction returns one empty context.  The
    keyword occurs in the description at index 60, and the stripped window
    of 50 characters around that occurrence is fifty U+0130 and "plan":
    the result is not the one the claim describes. *)
Theorem lowered_index_misplaces_context :
  Text.len dotted_plan = 64
  /\ Text.len (Text.lower Text.lower_cp_basic dotted_plan) = 124
  /\ Text.find (Text.of_str "plan")
       (Text.lower Text.lower_cp_basic dotted_plan) = 120
  /\ extract_deliverables_from_description Text.lower_cp_basic dotted_plan
     = [[]]
  /\ first_match Text.lower_cp_basic (Text.of_str "plan") dotted_plan 60
  /\ Text.strip (window 50 50 dotted_plan (Text.of_str "plan") 60)
     = replicate 50 0x130%N ++ Text.of_str "plan"
  /\ ~ extraction_spec Text.lower_cp_basic deliverable_keywords 50 50 10
         dotted_plan
         (extract_deliverables_from_description Text.lower_cp_basic
            dotted_plan).
Proof.
  assert (Hfirst :
    first_match Text.lower_cp_basic (Text.of_str "plan") dotted_plan 60).
  { apply (first_match_behind_dotted 60 (Text.of_str "plan") 0x70%N
             (Text.of_str "lan")); [discriminate | reflexivity]. }
  assert (Hwin :
    Text.strip (window 50 50 dotted_plan (Text.of_str "plan") 60)
    = replicate 50 0x130%N ++ Text.of_str "plan")
    by (vm_compute; reflexivity).
  assert (Hres :
    extract_deliverables_from_description Text.lower_cp_basic dotted_plan
    = [[]]) by (vm_compute; reflexivity).
  repeat split; try (vm_compute; reflexivity); try apply Hfirst.
  intros ((per & Hper & Htake) & _ & _). rewrite Hres in Htake.
  assert (Hlen : length (concat per) = 1%nat).
  { apply (f_equal length) in Htake. rewrite length_take in Htake.
    cbn [length] in Htake. lia. }
  rewrite take_ge in Htake by lia.
  destruct (contribution_of_present Text.lower_cp_basic 50 50 dotted_plan
              deliverable_keywords per (Text.of_str "plan") Hper)
    as (i & Hi & Hmem).
  - unfold deliverable_keywords. apply list_elem_of_fmap. exists "plan".
    split; [done|]. apply list_elem_of_In. simpl. tauto.
  - exists 60%nat. apply Hfirst.
  - rewrite (first_match_unique _ _ _ _ _ Hi Hfirst), Hwin, <- Htake in Hmem.
    apply list_elem_of_singleton in Hmem. discriminate.
Qed.

End ExtractionTheorems.

Section OverlappingKeywords.

Lemma window_extend (before after : nat) (description k extra : Text.text) i :
  exists tail,
    window before after description (k ++ extra) i
    = window before after description k i ++ tail
    /\ (length tail <= length extra)%nat.
Proof.
  unfold window. rewrite length_app.
  set (n := length description). set (lo := (i - before)%nat).
  set (h1 := (Nat.min (i + length k + after) n - lo)%nat).
  set (h2 := (Nat.min (i + (length k + length extra) + after) n - lo)%nat).
  exists (take (h2 - h1) (drop h1 (drop lo description))). split.
  - rewrite take_take_drop. f_equal. lia.
  - rewrite length_take. lia.
Qed.

(** C10, as stated, fails: in [split_occurrences] the keyword "deliverable"
    first occurs at index 0 and "deliverables" at index 131, so the two
    keywords match different occurrences, and their two contexts are cut
    from windows that do not meet. *)
Lemma keywords_match_different_occurrences :
  ci_contains Text.lower_cp_basic (Text.of_str "deliverables")
    split_occurrences
  /\ Text.find (Text.of_str "deliverable")
       (Text.lower Text.lower_cp_basic split_occurrences) = 0
  /\ Text.find (Text.of_str "deliverables")
       (Text.lower Text.lower_cp_basic split_occurrences) = 131
  /\ extract_deliverables_from_description Text.lower_cp_basic
       split_occurrences
     = [ Text.of_str "deliverable" ++ replicate 50 0x2D%N;
         replicate 50 0x2D%N ++ Text.of_str "deliverables" ]
  /\ 0 + Text.len (Text.of_str "deliverable") + 50 <= 131 - 50.
Proof.
  split.
  - exists 131%nat, (Text.of_str "deliverable" ++ replicate 120 0x2D%N),
      (Text.of_str "deliverables"), [].
    repeat split; vm_compute; reflexivity.
  - repeat split; vm_compute; try reflexivity. discriminate.
Qed.

(** C10, amended: for every description that lowering keeps character
    for character and that contains "deliverables", without regard to
    case, the keywords "deliverable" and "deliverables" both match and each
    contributes its context, with no deduplication: the result opens with
    the stripped windows around the first occurrence of "deliverable" and
    around the first occurrence of "deliverables", the former not after the
    latter.  When the two first occurrences are the same, the second
    window is the first one with at most one more character. *)
Theorem deliverable_pair_contexts lower_cp description :
  keeps_length lower_cp description ->
  ci_contains lower_cp (Text.of_str "deliverables") description ->
  exists (i1 i2 : nat) rest,
    first_match lower_cp (Text.of_str "deliverable") description i1
    /\ first_match lower_cp (Text.of_str "deliverables") description i2
    /\ (i1 <= i2)%nat
    /\ extract_deliverables_from_description lower_cp description
       = Text.strip (window 50 50 description (Text.of_str "deliverable") i1)
         :: Text.strip
              (window 50 50 description (Text.of_str "deliverables") i2)
         :: rest
    /\ (i1 = i2 ->
        exists tail,
          window 50 50 description (Text.of_str "deliverables") i2
          = window 50 50 description (Text.of_str "deliverable") i1 ++ tail
          /\ (length tail <= 1)%nat).
Proof.
  intros Hk Hci.
  assert (Hpre : forall i,
    matches_at lower_cp (Text.of_str "deliverables") description i ->
    matches_at lower_cp (Text.of_str "deliverable") description i).
  { intros i Hi. apply matches_at_lowered; [done|].
    apply (stands_at_prefix _ (Text.of_str "s")).
    now apply matches_at_lowered in Hi. }
  assert (Hci1 : ci_contains lower_cp (Text.of_str "deliverable") description).
  { destruct Hci as [i Hi]. exists i. now apply Hpre. }
  assert (Hne : description <> []).
  { intros ->. revert Hci. now apply no_keyword_in_empty. }
  destruct (scan_loop_spec lower_cp 50 50 description deliverable_keywords []
              Hk) as (per & Hper & Hfold).
  pose proof Hper as Hper'. unfold deliverable_keywords in Hper'.
  rewrite !fmap_cons in Hper'.
  apply Forall2_cons_inv_l in Hper' as (c1 & per1 & Hc1 & Hper' & ->).
  apply Forall2_cons_inv_l in Hper' as (c2 & per2 & Hc2 & _ & ->).
  destruct Hc1 as [[Habs _]|(i1 & Hf1 & ->)]; [contradiction|].
  destruct Hc2 as [[Habs _]|(i2 & Hf2 & ->)]; [contradiction|].
  exists i1, i2. eexists. split; [done|]. split; [done|]. split; [|split].
  - destruct Hf1 as [_ Hmin]. apply Hmin. apply Hpre, Hf2.
  - unfold extract_deliverables_from_description, extract_contexts.
    destruct description as [|c0 d0] eqn:Ed; [done|]. rewrite <- Ed in *.
    replace (negb (Text.truthy description)) with false by now rewrite Ed.
    change 50 with (Z.of_nat 50). rewrite Hfold.
    cbn [app concat]. rewrite slice_nonneg by lia.
    rewrite drop_0. cbn [app]. reflexivity.
  - intros ->.
    apply (window_extend 50 50 description (Text.of_str "deliverable")
             (Text.of_str "s") i2).
Qed.

Lemma deliverable_pair_contexts_witness :
  exists (i1 i2 : nat) rest,
    first_match Text.lower_cp_basic (Text.of_str "deliverable") ships i1
    /\ first_match Text.lower_cp_basic (Text.of_str "deliverables") ships i2
    /\ (i1 <= i2)%nat
    /\ extract_deliverables_from_description Text.lower_cp_basic ships
       = Text.strip (window 50 50 ships (Text.of_str "deliverable") i1)
         :: Text.strip (window 50 50 ships (Text.of_str "deliverables") i2)
         :: rest
    /\ (i1 = i2 ->
        exists tail,
          window 50 50 ships (Text.of_str "deliverables") i2
          = window 50 50 ships (Text.of_str "deliverable") i1 ++ tail
          /\ (length tail <= 1)%nat).
Proof.
  assert (Hk : keeps_length Text.lower_cp_basic ships)
    by (apply keeps_length_basic; vm_compute; reflexivity).
  apply (deliverable_pair_contexts Text.lower_cp_basic ships Hk).
  apply ci_contains_is_in; [exact Hk|]. vm_compute. reflexivity.
Defined.

(** On the description "deliverables" the two contexts are equal. *)
Example deliverables_duplicated :
  extract_deliverables_from_description Text.lower_cp_basic
    (Text.of_str "deliverables")
  = [Text.of_str "deliverables"; Text.of_str "deliverables"].
Proof. vm_compute. reflexivity. Qed.

(** Behind sixty U+0130 the two contexts are both cut at the index found
    in the lowered description, sixty characters too far. *)
Example dotted_deliverables_contexts :
  extract_deliverables_from_description Text.lower_cp_basic
    dotted_deliverables
  = [Text.of_str "es"; Text.of_str "es"].
Proof. vm_compute. reflexivity. Qed.

End OverlappingKeywords.

(** * The two query paths *)

Section TwoPaths.





End TwoPaths.

(** * Further properties of the in-memory query engine *)

Section OrderFacts.

Lemma ascii_compare_refl a : Ascii.compare a a = Eq.
Proof. unfold Ascii.compare. apply N.compare_refl. Qed.

Lemma ascii_compare_eq a b : Ascii.compare a b = Eq -> a = b.
Proof. apply Ascii.compare_eq_iff. Qed.

Lemma ascii_compare_lt_trans a b c :
  Ascii.compare a b = Lt -> Ascii.compare b c = Lt -> Ascii.compare a c = Lt.
Proof.
  unfold Ascii.compare. rewrite !N.compare_lt_iff. lia.
Qed.

Lemma string_compare_refl s : String.compare s s = Eq.
Proof.
  induction s as [|c s IH]; simpl; [done|]. now rewrite ascii_compare_refl.
Qed.

Lemma string_compare_trans a b c :
  String.compare a b <> Gt -> String.compare b c <> Gt ->
  String.compare a c <> Gt.
Proof.
  revert b c. induction a as [|x a IH]; intros [|y b] [|z c]; simpl;
    try congruence.
  destruct (Ascii.compare x y) eqn:Exy; try congruence;
    destruct (Ascii.compare y z) eqn:Eyz; try congruence.
  - apply ascii_compare_eq in Exy, Eyz. subst.
    rewrite ascii_compare_refl. apply IH.
  - apply ascii_compare_eq in Exy. subst. now rewrite Eyz.
  - apply ascii_compare_eq in Eyz. subst. now rewrite Exy.
  - now rewrite (ascii_compare_lt_trans x y z).
Qed.

Lemma str_le_refl s : Py.str_le s s = true.
Proof. unfold Py.str_le, String.leb. now rewrite string_compare_refl. Qed.

Lemma str_le_trans a b c :
  Py.str_le a b = true -> Py.str_le b c = true -> Py.str_le a c = true.
Proof.
  unfold Py.str_le, String.leb. intros Hab Hbc.
  pose proof (string_compare_trans a b c) as H.
  destruct (String.compare a b), (String.compare b c),
    (String.compare a c); try done; exfalso; apply H; congruence.
Qed.

Lemma str_le_total a b : Py.str_le a b = true \/ Py.str_le b a = true.
Proof. apply String.leb_total. Qed.

End OrderFacts.

Section SortFacts.

Context {A : Type} (before : A -> A -> bool).

Lemma insert_sorted_perm x l : Py.insert_sorted before x l ≡ₚ x :: l.
Proof.
  induction l as [|y t IH]; simpl; [done|].
  destruct (before x y); [done|]. rewrite IH. apply Permutation_swap.
Qed.

Lemma sort_perm l : Py.sort before l ≡ₚ l.
Proof.
  induction l as [|x t IH]; simpl; [done|].
  now rewrite insert_sorted_perm, IH.
Qed.

Hypothesis before_total : forall x y, before x y = true \/ before y x = true.
Hypothesis before_trans :
  forall x y z, before x y = true -> before y z = true -> before x z = true.

Lemma insert_sorted_sorted x l :
  StronglySorted (fun a b => before a b = true) l ->
  StronglySorted (fun a b => before a b = true) (Py.insert_sorted before x l).
Proof.
  induction 1 as [|y t Hs IH Hall]; simpl.
  - repeat constructor.
  - destruct (before x y) eqn:E.
    + constructor; [now constructor|]. constructor; [done|].
      eapply Forall_impl; [exact Hall|]. intros z Hz. eauto.
    + constructor; [done|].
      rewrite insert_sorted_perm. constructor; [|done].
      destruct (before_total x y); congruence.
Qed.

Lemma sort_sorted l :
  StronglySorted (fun a b => before a b = true) (Py.sort before l).
Proof.
  induction l as [|x t IH]; simpl; [constructor|].
  now apply insert_sorted_sorted.
Qed.

End SortFacts.

Section StableSort.

Context {A K : Type} `{EqDecision K} (key : A -> K) (before : A -> A -> bool).
Hypothesis before_same_key : forall x y, key x = key y -> before x y = true.

Lemma insert_sorted_stable k x l :
  filter (fun a => key a = k) (Py.insert_sorted before x l)
  = filter (fun a => key a = k) (x :: l).
Proof.
  induction l as [|y t IH]; simpl; [done|].
  destruct (before x y) eqn:E; [done|].
  assert (Hne : key x <> key y).
  { intros He. rewrite (before_same_key x y He) in E. discriminate. }
  rewrite filter_cons, IH, !filter_cons.
  destruct (decide (key y = k)), (decide (key x = k)); try done. congruence.
Qed.

Lemma sort_stable k l :
  filter (fun a => key a = k) (Py.sort before l)
  = filter (fun a => key a = k) l.
Proof.
  induction l as [|x t IH]; simpl; [done|].
  rewrite insert_sorted_stable, !filter_cons, IH. done.
Qed.

End StableSort.

(** * The two query paths, compared *)

Section TwoPathsAgree.







(** The same window through both paths: the second of the two demo
    records in descending order of posted date. *)
Example second_row_through_both_paths :
  InMemory.get_opportunities (with_page 2 1) MOCK_OPPORTUNITIES
  = InMemory.Page [demo001]
      {| InMemory.pg_page := 2; InMemory.pg_per_page := 1;
         InMemory.pg_total := 2; InMemory.pg_total_pages := 2;
         InMemory.pg_has_next := false; InMemory.pg_has_prev := true |}
  /\ Pushdown.data
       (Pushdown.list_opportunities (push_window 1 1) MOCK_OPPORTUNITIES)
     = [Pushdown.project demo001].
Proof. split; vm_compute; reflexivity. Qed.

End TwoPathsAgree.

Section QueryExtras.

Import InMemory.

Lemma strongly_sorted_sublist {A} (R : A -> A -> Prop) (k l : list A) :
  k `sublist_of` l -> StronglySorted R l -> StronglySorted R k.
Proof.
  induction 1 as [|x k l Hsub IH|x k l Hsub IH]; intros Hs.
  - constructor.
  - apply StronglySorted_inv in Hs as [Hs Hall]. constructor; [auto|].
    rewrite Forall_forall in Hall |- *. intros y Hy. apply Hall.
    eapply elem_of_sublist; [exact Hy | exact Hsub].
  - apply StronglySorted_inv in Hs as [Hs _]. auto.
Qed.

Lemma slice_sublist {A} (l : list A) a b : Py.slice l a b `sublist_of` l.
Proof.
  unfold Py.slice. etrans; [apply sublist_take | apply sublist_drop].
Qed.

(** The search filter: under a non-empty search, a record that passes the
    other checks is kept if and only if the search string occurs, without
    regard to case, in the title and the description joined by one space; a
    missing title or description counts as empty. *)
Theorem search_filter_spec q store opp :
  search q <> "" ->
  opp ∈ store ->
  agency_check q opp = true ->
  naics_check q opp = true ->
  active_check q opp = true ->
  (opp ∈ filter_loop q store []
   <-> ci_substring (search q)
         (default "" (opp !! "title") +:+ " "
          +:+ default "" (opp !! "description"))).
Proof.
  intros Hne Hin Hg Hn Ha. rewrite filter_loop_elem. unfold passes.
  rewrite Hg, Hn, Ha. simpl. unfold search_check.
  apply truthy_true in Hne. rewrite Hne. simpl.
  rewrite negb_involutive, !andb_true_r, is_in_spec.
  unfold ci_substring, get. tauto.
Qed.

Lemma search_filter_spec_witness :
  demo001 ∈ filter_loop (with_search "it SERVICES") MOCK_OPPORTUNITIES []
  <-> ci_substring "it SERVICES"
        (default "" (demo001 !! "title") +:+ " "
         +:+ default "" (demo001 !! "description")).
Proof.
  apply (search_filter_spec (with_search "it SERVICES") MOCK_OPPORTUNITIES
           demo001).
  - simpl. discriminate.
  - unfold MOCK_OPPORTUNITIES. apply list_elem_of_here.
  - vm_compute. reflexivity.
  - vm_compute. reflexivity.
  - vm_compute. reflexivity.
Defined.

(** The NAICS filter: under a non-empty filter, a record that passes the
    other checks is kept if and only if the filter string, as written, is a
    substring of its naics_code, so a prefix of a code selects its sector;
    a record without the field is dropped. *)
Theorem naics_filter_spec q store opp :
  naics q <> "" ->
  opp ∈ store ->
  search_check q opp = true ->
  agency_check q opp = true ->
  active_check q opp = true ->
  (opp ∈ filter_loop q store []
   <-> is_substring (naics q) (default "" (opp !! "naics_code")))
  /\ (opp !! "naics_code" = None -> opp ∉ filter_loop q store []).
Proof.
  intros Hne Hin Hs Hg Ha.
  assert (Hiff : opp ∈ filter_loop q store []
                 <-> is_substring (naics q) (default "" (opp !! "naics_code"))).
  { rewrite filter_loop_elem. unfold passes.
    rewrite Hs, Hg, Ha. simpl. unfold naics_check.
    pose proof Hne as Ht. apply truthy_true in Ht. rewrite Ht. simpl.
    rewrite negb_involutive, !andb_true_r, is_in_spec. unfold get. tauto. }
  split; [exact Hiff|].
  intros Hnone. rewrite Hiff, Hnone. simpl.
  intros (i & pre & post & H & _).
  change (Py.chars "") with (@nil ascii) in H.
  symmetry in H. apply app_eq_nil in H as [_ H].
  apply app_eq_nil in H as [H _]. apply Hne. apply chars_inj. exact H.
Qed.

Lemma naics_filter_spec_witness :
  (demo001 ∈ filter_loop (with_naics "5415") MOCK_OPPORTUNITIES []
   <-> is_substring "5415" (default "" (demo001 !! "naics_code")))
  /\ (demo001 !! "naics_code" = None ->
      demo001 ∉ filter_loop (with_naics "5415") MOCK_OPPORTUNITIES []).
Proof.
  apply (naics_filter_spec (with_naics "5415") MOCK_OPPORTUNITIES demo001).
  - simpl. discriminate.
  - unfold MOCK_OPPORTUNITIES. apply list_elem_of_here.
  - vm_compute. reflexivity.
  - vm_compute. reflexivity.
  - vm_compute. reflexivity.
Defined.

Lemma filter_twice {A} (f g : A -> bool) l :
  List.filter g (List.filter f l) = List.filter (fun x => f x && g x) l.
Proof.
  induction l as [|x t IH]; simpl; [done|].
  destruct (f x); simpl; [|done]. destruct (g x); now rewrite IH.
Qed.

(** The filters compose: filtering on an agency and a NAICS code together
    gives the records, in the same order, that filtering on the agency and
    then filtering the result on the NAICS code gives, and the same in the
    other order. *)
Theorem agency_and_naics_compose a n store :
  filter_loop (with_agency_naics a n) store []
  = filter_loop (with_naics n) (filter_loop (with_agency a) store []) []
  /\ filter_loop (with_agency_naics a n) store []
     = filter_loop (with_agency a) (filter_loop (with_naics n) store []) [].
Proof.
  rewrite !filter_loop_spec. simpl. rewrite !filter_twice.
  split; apply filter_ext; intros opp; unfold passes, search_check,
    agency_check, naics_check, active_check; simpl;
    rewrite ?andb_true_r; [done|apply andb_comm].
Qed.

(** Whatever the page and per_page, also negative ones, every row of an
    answer is a record of the store that passes the four checks, and the
    rows keep the order of the filtered and sorted records. *)
Theorem rows_come_from_store q store rows pg :
  get_opportunities q store = Page rows pg ->
  rows `sublist_of` sort_step q (List.filter (passes q) store)
  /\ forall r, r ∈ rows -> r ∈ store /\ passes q r = true.
Proof.
  unfold get_opportunities, paginate. rewrite filter_loop_spec. simpl.
  destruct (per_page q =? 0); [discriminate|]. intros [= <- _].
  split; [apply slice_sublist|].
  intros r Hr. eapply elem_of_sublist in Hr; [|apply slice_sublist].
  assert (Hf : r ∈ List.filter (passes q) store).
  { unfold sort_step, sort_records in Hr.
    destruct (sortable (sort_by q)); [|done].
    now rewrite sort_perm in Hr. }
  apply list_elem_of_In, filter_In in Hf as [Hin Hp].
  split; [now apply list_elem_of_In | done].
Qed.

Lemma rows_come_from_store_witness :
  [demo002] `sublist_of`
    sort_step (with_page (-1) 1)
      (List.filter (passes (with_page (-1) 1)) MOCK_OPPORTUNITIES)
  /\ forall r, r ∈ [demo002] ->
       r ∈ MOCK_OPPORTUNITIES /\ passes (with_page (-1) 1) r = true.
Proof.
  apply (rows_come_from_store (with_page (-1) 1) MOCK_OPPORTUNITIES [demo002]
           {| pg_page := -1; pg_per_page := 1; pg_total := 2;
              pg_total_pages := 2; pg_has_next := true;
              pg_has_prev := false |}).
  vm_compute. reflexivity.
Defined.

End QueryExtras.

Section SortExtras.

Import InMemory.

Lemma sort_records_sorted field reverse l :
  StronglySorted (in_order field reverse) (sort_records field reverse l).
Proof.
  unfold sort_records, in_order, sort_key.
  destruct reverse.
  - apply (sort_sorted (fun x y => Py.str_le (get y field) (get x field))).
    + intros x y. destruct (str_le_total (get x field) (get y field)); auto.
    + intros x y z Hxy Hyz. eapply str_le_trans; eauto.
  - apply (sort_sorted (fun x y => Py.str_le (get x field) (get y field))).
    + intros x y. apply str_le_total.
    + intros x y z. apply str_le_trans.
Qed.

(** Under an allow-listed sort_by the rows of an answer are in order of the
    sort field, non-increasing under sort_order "desc" and non-decreasing
    under any other sort_order, the field compared as a string and a
    missing field counting as the empty string; the sort loses and adds no
    record. *)
Theorem rows_are_sorted q store rows pg :
  sort_by q ∈ ["posted_date"; "response_deadline"; "title"] ->
  get_opportunities q store = Page rows pg ->
  StronglySorted
    (in_order (sort_by q) (String.eqb (sort_order q) "desc")) rows
  /\ sort_step q (List.filter (passes q) store)
     ≡ₚ List.filter (passes q) store.
Proof.
  intros Hs Hget. apply sortable_spec in Hs.
  destruct (rows_come_from_store q store rows pg Hget) as [Hsub _].
  unfold sort_step in *. rewrite Hs in *. split.
  - eapply strongly_sorted_sublist; [exact Hsub|]. apply sort_records_sorted.
  - apply sort_perm.
Qed.

Lemma rows_are_sorted_witness :
  StronglySorted (in_order "posted_date" (String.eqb "desc" "desc"))
    [demo002; demo001]
  /\ sort_step (with_sort_by "posted_date")
       (List.filter (passes (with_sort_by "posted_date")) MOCK_OPPORTUNITIES)
     ≡ₚ List.filter (passes (with_sort_by "posted_date")) MOCK_OPPORTUNITIES.
Proof.
  apply (rows_are_sorted (with_sort_by "posted_date") MOCK_OPPORTUNITIES
           [demo002; demo001]
           {| pg_page := 1; pg_per_page := 20; pg_total := 2;
              pg_total_pages := 1; pg_has_next := false;
              pg_has_prev := false |}).
  - simpl. apply list_elem_of_here.
  - vm_compute. reflexivity.
Defined.

(** The sort is stable in both directions: the records that share a value
    of the sort field stay in the order they had before the sort. *)
Theorem sort_keeps_ties_in_order q l k :
  filter (fun r => get r (sort_by q) = k) (sort_step q l)
  = filter (fun r => get r (sort_by q) = k) l.
Proof.
  unfold sort_step, sort_records, sort_key.
  destruct (sortable (sort_by q)); [|done].
  apply (sort_stable (fun r => get r (sort_by q))).
  intros x y Hxy. rewrite Hxy. destruct (String.eqb _ _); apply str_le_refl.
Qed.

End SortExtras.

Section PaginationExtras.

Import InMemory.

Lemma paginate_rows page per_page l :
  0 < page -> 0 < per_page ->
  rows_of (paginate page per_page l)
  = take (Z.to_nat per_page) (drop (Z.to_nat ((page - 1) * per_page)) l).
Proof.
  intros Hp Hpp. unfold paginate.
  destruct (Z.eqb_spec per_page 0); [lia|]. simpl.
  rewrite slice_nonneg by nia. do 2 f_equal. lia.
Qed.

Lemma pages_upto_take per_page l n :
  0 < per_page ->
  pages_upto per_page l n = take (n * Z.to_nat per_page) l.
Proof.
  intros Hpp. unfold pages_upto. induction n as [|n IH].
  - simpl. now rewrite take_0.
  - rewrite seq_S, fmap_app, concat_app, IH. simpl. rewrite app_nil_r.
    rewrite paginate_rows by lia.
    replace (Z.to_nat ((Z.of_nat (S n) - 1) * per_page))
      with (n * Z.to_nat per_page)%nat by nia.
    rewrite take_take_drop. f_equal. lia.
Qed.

(** The pages of a listing partition it: for a positive per_page, the row
    windows of the pages 1 to total_pages, one after the other, are the
    filtered and sorted records, each one once and in order. *)
Theorem pages_partition_the_listing per_page l :
  0 < per_page ->
  pages_upto per_page l
    (Z.to_nat ((Z.of_nat (length l) + per_page - 1) / per_page))
  = l.
Proof.
  intros Hpp. rewrite pages_upto_take by done. apply take_ge.
  pose proof (ceil_div_spec (Z.of_nat (length l)) per_page) as [_ Hc];
    [lia|lia|].
  set (n := (Z.of_nat (length l) + per_page - 1) / per_page) in *.
  assert (0 <= n) by (apply Z.div_pos; lia). nia.
Qed.

Lemma pages_partition_the_listing_witness :
  pages_upto 1 MOCK_OPPORTUNITIES
    (Z.to_nat ((Z.of_nat (length MOCK_OPPORTUNITIES) + 1 - 1) / 1))
  = MOCK_OPPORTUNITIES.
Proof. apply (pages_partition_the_listing 1 MOCK_OPPORTUNITIES). lia. Defined.

(** For positive page and per_page, has_next holds exactly when the next
    page has a row, and then the page itself is full; has_prev holds
    exactly from page 2 on. *)
Theorem has_next_iff_next_page_has_rows q store rows pg :
  0 < page q -> 0 < per_page q ->
  get_opportunities q store = Page rows pg ->
  (pg_has_next pg = true
   <-> rows_of (paginate (page q + 1) (per_page q)
                  (sort_step q (List.filter (passes q) store))) <> [])
  /\ (pg_has_next pg = true -> Z.of_nat (length rows) = per_page q)
  /\ (pg_has_prev pg = true <-> 1 < page q).
Proof.
  intros Hp Hpp. unfold get_opportunities. rewrite filter_loop_spec. simpl.
  set (sorted := sort_step q (List.filter (passes q) store)).
  intros Hget.
  assert (Hrows : rows = rows_of (paginate (page q) (per_page q) sorted))
    by now rewrite Hget.
  rewrite paginate_rows in Hrows by done.
  rewrite paginate_rows by lia.
  unfold paginate in Hget. destruct (Z.eqb_spec (per_page q) 0); [lia|].
  injection Hget as _ <-. simpl.
  set (t := Z.of_nat (length sorted)).
  assert (Hnext : page q < (t + per_page q - 1) / per_page q
                  <-> page q * per_page q < t).
  { split; intros H.
    - pose proof (Z.mul_div_le (t + per_page q - 1) (per_page q) Hpp). nia.
    - assert (page q + 1 <= (t + per_page q - 1) / per_page q); [|lia].
      apply Z.div_le_lower_bound; [done|]. nia. }
  rewrite Z.ltb_lt, Hnext. split; [|split].
  - replace (page q + 1 - 1) with (page q) by lia. split.
    + intros H Hnil. apply (f_equal length) in Hnil.
      rewrite length_take, length_drop in Hnil. simpl in Hnil. unfold t in H.
      nia.
    + intros H. destruct (Z.lt_ge_cases (page q * per_page q) t) as [|Hge];
        [done|]. exfalso. apply H. rewrite drop_ge; [apply take_nil|].
      unfold t in Hge. nia.
  - intros H. rewrite Hrows, length_take, length_drop. unfold t in H. nia.
  - apply Z.ltb_lt.
Qed.

Lemma has_next_iff_next_page_has_rows_witness :
  (true = true
   <-> rows_of (paginate (1 + 1) 1
                  (sort_step (with_page 1 1)
                     (List.filter (passes (with_page 1 1)) MOCK_OPPORTUNITIES)))
       <> [])
  /\ (true = true -> Z.of_nat (length [demo002]) = 1)
  /\ (false = true <-> 1 < 1).
Proof.
  apply (has_next_iff_next_page_has_rows (with_page 1 1) MOCK_OPPORTUNITIES
           [demo002]
           {| pg_page := 1; pg_per_page := 1; pg_total := 2;
              pg_total_pages := 2; pg_has_next := true;
              pg_has_prev := false |}).
  - simpl. lia.
  - simpl. lia.
  - vm_compute. reflexivity.
Defined.

End PaginationExtras.

(** * The evaluation handler *)

Section HandlerExtras.

Variable get_opportunity : string -> option record.
Variable fromisoformat : string -> option Datetime.datetime.
Variable now : Z.

Lemma len_app a b : Py.len (a +:+ b) = Py.len a + Py.len b.
Proof. unfold Py.len. rewrite chars_app, length_app. lia. Qed.

Lemma evaluation_description_shown opp :
  evaluation_description opp = shown_description <$> opp !! "description".
Proof.
  unfold evaluation_description, shown_description, get.
  destruct (opp !! "description") as [d|]; simpl; [|done].
  destruct (Z.ltb_spec 500 (Py.len d)) as [Hlong|Hshort].
  - assert (Ht : Py.truthy d = true).
    { apply truthy_true. intros ->. vm_compute in Hlong. discriminate. }
    rewrite Ht. simpl. destruct (decide (Py.len d <= 500)); [lia|].
    do 2 f_equal. unfold Py.substr. f_equal.
    rewrite slice_nonneg by lia. now rewrite drop_0.
  - rewrite andb_false_r. now destruct (decide (Py.len d <= 500)); [|lia].
Qed.

Lemma shown_description_bounded d : Py.len (shown_description d) <= 503.
Proof.
  unfold shown_description. destruct (decide (Py.len d <= 500)); [lia|].
  rewrite len_app. unfold Py.len at 1. rewrite chars_str, length_take.
  change (Py.len "...") with 3. lia.
Qed.

(** An evaluation is answered exactly for a notice the store knows with a
    non-empty record; its description is the record's description when that
    has at most 500 characters, and else the first 500 characters followed
    by an ellipsis, so never more than 503 characters; a record without
    description gives none. *)
Theorem evaluation_truncates_description notice_id body :
  evaluate_opportunity get_opportunity fromisoformat now notice_id
  = Ok200 body ->
  exists opp,
    get_opportunity notice_id = Some opp
    /\ opp <> ∅
    /\ ev_notice_id body = opp !! "notice_id"
    /\ ev_description body = shown_description <$> opp !! "description"
    /\ forall s, ev_description body = Some s -> Py.len s <= 503.
Proof.
  unfold evaluate_opportunity, found.
  destruct (get_opportunity notice_id) as [opp|]; [|discriminate].
  destruct (decide (opp = ∅)); [discriminate|].
  intros [= <-]. exists opp. simpl.
  rewrite evaluation_description_shown. repeat split; try done.
  intros s Hs. destruct (opp !! "description") as [d|]; [|discriminate].
  injection Hs as <-. apply shown_description_bounded.
Qed.


End HandlerExtras.

Lemma evaluation_truncates_description_witness :
  exists opp,
    demo_store "DEMO001" = Some opp
    /\ opp <> ∅
    /\ ev_notice_id demo001_evaluation = opp !! "notice_id"
    /\ ev_description demo001_evaluation
       = shown_description <$> opp !! "description"
    /\ forall s, ev_description demo001_evaluation = Some s -> Py.len s <= 503.
Proof.
  apply (evaluation_truncates_description demo_store
           Datetime.fromisoformat_basic sample_now "DEMO001"
           demo001_evaluation).
  vm_compute. reflexivity.
Defined.

Section DeadlineExtras.

Variable fromisoformat : string -> option Datetime.datetime.
Variable now : Z.

(** For a deadline that parses to a naive date, the tag follows the time
    that remains: urgent when less than 7 times 24 hours remain (also when
    the deadline has passed), plan-accordingly from 7 days to less than 14,
    good-planning-time from 14 days on; the day count in the message is the
    number of whole days, rounded down. *)
Theorem deadline_tiers_by_remaining_time opp s deadline_date :
  opp !! "response_deadline" = Some s ->
  s <> "" ->
  fromisoformat (Py.replace_Z "+00:00" s) = Some deadline_date ->
  Datetime.utcoffset deadline_date = None ->
  let remaining := Datetime.wall_us deadline_date - now in
  let d := Datetime.days remaining in
  d * Datetime.us_per_day <= remaining < (d + 1) * Datetime.us_per_day
  /\ check_deadline fromisoformat now opp []
     = [ if decide (remaining < 7 * Datetime.us_per_day) then Urgent d
         else if decide (remaining < 14 * Datetime.us_per_day)
              then PlanAccordingly d
              else GoodPlanningTime d ].
Proof.
  intros Hs Hne Hp Hnaive remaining d.
  assert (Hday : 0 < Datetime.us_per_day) by (vm_compute; reflexivity).
  assert (Hd : d * Datetime.us_per_day <= remaining
               < (d + 1) * Datetime.us_per_day).
  { unfold d, Datetime.days.
    pose proof (Z.mul_div_le remaining _ Hday).
    pose proof (Z.mul_succ_div_gt remaining _ Hday). lia. }
  split; [exact Hd|].
  unfold check_deadline, days_until.
  apply truthy_true in Hne. rewrite Hs, Hne, Hp. simpl.
  unfold Datetime.sub. rewrite Hnaive. simpl.
  fold remaining. fold d.
  destruct (Z.ltb_spec d 7), (decide (remaining < 7 * Datetime.us_per_day));
    try nia; [done|].
  destruct (Z.ltb_spec d 14), (decide (remaining < 14 * Datetime.us_per_day));
    try nia; done.
Qed.

End DeadlineExtras.

Lemma deadline_tiers_by_remaining_time_witness :
  let remaining := sample_now + 5 * Datetime.us_per_day + 28800000000
                   - sample_now in
  let d := Datetime.days remaining in
  d * Datetime.us_per_day <= remaining < (d + 1) * Datetime.us_per_day
  /\ check_deadline Datetime.fromisoformat_basic sample_now set_aside_sample []
     = [ if decide (remaining < 7 * Datetime.us_per_day) then Urgent d
         else if decide (remaining < 14 * Datetime.us_per_day)
              then PlanAccordingly d
              else GoodPlanningTime d ].
Proof.
  apply (deadline_tiers_by_remaining_time Datetime.fromisoformat_basic
           sample_now set_aside_sample "2024-02-15T17:00:00"
           {| Datetime.wall_us := sample_now + 5 * Datetime.us_per_day
                                  + 28800000000;
              Datetime.utcoffset := None |}).
  - vm_compute. reflexivity.
  - discriminate.
  - vm_compute. reflexivity.
  - reflexivity.
Defined.

(** The set-aside tag goes to the first of "small business", "women" and
    "veteran" that the set-aside description contains, without regard to
    case: a description naming several of them is tagged for the first
    only, and one naming none gets no tag. *)
Theorem set_aside_first_match_wins opp :
  let set_aside := default "" (opp !! "type_of_set_aside_description") in
  (ci_substring "small business" set_aside ->
   check_set_aside opp [] = [SmallBusiness])
  /\ (~ ci_substring "small business" set_aside ->
      ci_substring "women" set_aside ->
      check_set_aside opp [] = [WomenOwned])
  /\ (~ ci_substring "small business" set_aside ->
      ~ ci_substring "women" set_aside ->
      ci_substring "veteran" set_aside ->
      check_set_aside opp [] = [VeteranOwned])
  /\ (~ ci_substring "small business" set_aside ->
      ~ ci_substring "women" set_aside ->
      ~ ci_substring "veteran" set_aside ->
      check_set_aside opp [] = []).
Proof.
  intros set_aside. unfold check_set_aside, ci_substring. fold (get opp "type_of_set_aside_description").
  change (get opp "type_of_set_aside_description") with set_aside.
  change (Py.lower "small business") with "small business".
  change (Py.lower "women") with "women".
  change (Py.lower "veteran") with "veteran".
  rewrite <- !is_in_spec. cbv zeta.
  destruct (Py.truthy set_aside) eqn:Ht.
  - destruct (Py.is_in "small business" (Py.lower set_aside));
      destruct (Py.is_in "women" (Py.lower set_aside));
      destruct (Py.is_in "veteran" (Py.lower set_aside));
      repeat split; intros; simpl; congruence.
  - apply truthy_false in Ht. rewrite Ht.
    repeat split; intros; try done;
      match goal with H : Py.is_in _ _ = true |- _ => vm_compute in H; discriminate end.
Qed.

Lemma set_aside_first_match_wins_witness :
  let set_aside :=
    default "" (set_aside_sample !! "type_of_set_aside_description") in
  (ci_substring "small business" set_aside ->
   check_set_aside set_aside_sample [] = [SmallBusiness])
  /\ (~ ci_substring "small business" set_aside ->
      ci_substring "women" set_aside ->
      check_set_aside set_aside_sample [] = [WomenOwned])
  /\ (~ ci_substring "small business" set_aside ->
      ~ ci_substring "women" set_aside ->
      ci_substring "veteran" set_aside ->
      check_set_aside set_aside_sample [] = [VeteranOwned])
  /\ (~ ci_substring "small business" set_aside ->
      ~ ci_substring "women" set_aside ->
      ~ ci_substring "veteran" set_aside ->
      check_set_aside set_aside_sample [] = []).
Proof. apply (set_aside_first_match_wins set_aside_sample). Defined.

(** * Statistics *)

Section DictFacts.

Lemma dict_get_incr d k k' :
  dict_get (dict_incr d k) k'
  = dict_get d k' + (if decide (k = k') then 1 else 0).
Proof.
  induction d as [|[k0 n] rest IH]; simpl.
  - destruct (String.eqb_spec k k'), (decide (k = k')); try done; lia.
  - destruct (String.eqb_spec k0 k) as [->|Hne]; simpl.
    + destruct (String.eqb_spec k k'), (decide (k = k')); try done; lia.
    + destruct (String.eqb_spec k0 k') as [->|Hne'].
      * destruct (decide (k = k')); [congruence | lia].
      * apply IH.
Qed.

Lemma dict_incr_keys d k k' :
  k' ∈ (dict_incr d k).*1 <-> k' = k \/ k' ∈ d.*1.
Proof.
  induction d as [|[k0 n] rest IH]; simpl.
  - rewrite list_elem_of_singleton, elem_of_nil. tauto.
  - destruct (String.eqb_spec k0 k) as [->|Hne]; simpl.
    + rewrite !elem_of_cons. tauto.
    + rewrite !elem_of_cons, IH. tauto.
Qed.

Lemma dict_incr_NoDup d k : NoDup d.*1 -> NoDup (dict_incr d k).*1.
Proof.
  induction d as [|[k0 n] rest IH]; simpl; intros Hnd.
  - repeat constructor. apply not_elem_of_nil.
  - apply NoDup_cons in Hnd as [Hnot Hnd].
    destruct (String.eqb_spec k0 k) as [->|Hne]; simpl.
    + now apply NoDup_cons.
    + apply NoDup_cons. split; [|auto].
      rewrite dict_incr_keys. intros [?|?]; [congruence|contradiction].
Qed.

Lemma dict_incr_total d k : total_count (dict_incr d k) = total_count d + 1.
Proof.
  unfold total_count. induction d as [|[k0 n] rest IH]; simpl; [lia|].
  destruct (String.eqb k0 k); simpl; lia.
Qed.

Lemma dict_get_elem d k n : NoDup d.*1 -> (k, n) ∈ d -> dict_get d k = n.
Proof.
  induction d as [|[k0 n0] rest IH]; simpl; intros Hnd Hin.
  - now apply elem_of_nil in Hin.
  - apply NoDup_cons in Hnd as [Hnot Hnd].
    apply elem_of_cons in Hin as [[= <- <-]|Hin].
    + now rewrite String.eqb_refl.
    + destruct (String.eqb_spec k0 k) as [->|_]; [|auto].
      exfalso. apply Hnot. apply list_elem_of_fmap. now exists (k, n).
Qed.

(** Counting the keys of a list one by one. *)
Lemma count_keys_spec keys :
  let d := fold_left dict_incr keys [] in
  NoDup d.*1
  /\ (forall k, dict_get d k = occurrences keys k)
  /\ (forall k, k ∈ d.*1 <-> k ∈ keys)
  /\ total_count d = Z.of_nat (length keys).
Proof.
  assert (H : forall d0,
    let d := fold_left dict_incr keys d0 in
    (NoDup d0.*1 -> NoDup d.*1)
    /\ (forall k, dict_get d k = dict_get d0 k + occurrences keys k)
    /\ (forall k, k ∈ d.*1 <-> k ∈ d0.*1 \/ k ∈ keys)
    /\ total_count d = total_count d0 + Z.of_nat (length keys)).
  { induction keys as [|x keys IH]; intros d0; simpl.
    - unfold occurrences. simpl. repeat split; try tauto; try lia.
      + intros [?|?]; [done|]. now apply elem_of_nil in H.
    - destruct (IH (dict_incr d0 x)) as (H1 & H2 & H3 & H4).
      split; [|split; [|split]].
      + intros Hnd. apply H1. now apply dict_incr_NoDup.
      + intros k. rewrite H2, dict_get_incr. unfold occurrences.
        rewrite filter_cons. destruct (decide (x = k)); simpl; lia.
      + intros k. rewrite H3, dict_incr_keys, elem_of_cons.
        split; intros; intuition congruence.
      + rewrite H4, dict_incr_total. lia. }
  intros d. destruct (H []) as (H1 & H2 & H3 & H4). fold d in H1, H2, H3, H4.
  split; [apply H1; constructor|]. split; [intros k; now rewrite H2|].
  split; [|simpl in H4; lia].
  intros k. rewrite H3. simpl. rewrite elem_of_nil. tauto.
Qed.

Lemma occurrences_pos keys k : k ∈ keys -> 0 < occurrences keys k.
Proof.
  intros Hin. unfold occurrences.
  assert (Hf : k ∈ filter (fun x => x = k) keys)
    by now apply list_elem_of_filter.
  destruct (filter (fun x => x = k) keys); [now apply elem_of_nil in Hf|].
  simpl. lia.
Qed.

Lemma count_agencies_fold opps :
  count_agencies opps = fold_left dict_incr (agency_of <$> opps) [].
Proof.
  unfold count_agencies. generalize (@nil (string * Z)) as d0.
  induction opps as [|o opps IH]; intros d0; simpl; [done|]. apply IH.
Qed.

Lemma count_naics_fold opps :
  count_naics opps
  = fold_left dict_incr (filter (fun c => c <> "") (naics_of <$> opps)) [].
Proof.
  unfold count_naics. generalize (@nil (string * Z)) as d0.
  induction opps as [|o opps IH]; intros d0; simpl; [done|].
  rewrite filter_cons. fold (naics_of o).
  destruct (decide (naics_of o <> "")) as [Hne|He].
  - apply truthy_true in Hne. rewrite Hne. simpl. apply IH.
  - assert (Hf : Py.truthy (naics_of o) = false).
    { apply truthy_false. now destruct (decide (naics_of o = "")). }
    rewrite Hf. apply IH.
Qed.

(** The ten largest: a sublist of the sorted distribution. *)
Lemma top10_take d :
  top10 d = take 10 (Py.sort (fun x y => snd y <=? snd x) d).
Proof. unfold top10. rewrite slice_nonneg by lia. now rewrite drop_0. Qed.

Lemma strongly_sorted_impl {A} (R S : A -> A -> Prop) l :
  (forall x y, R x y -> S x y) -> StronglySorted R l -> StronglySorted S l.
Proof.
  intros HRS. induction 1 as [|x l Hs IH Hall]; constructor; [done|].
  eapply Forall_impl; [exact Hall|]. auto.
Qed.

Lemma strongly_sorted_app_order {A} (R : A -> A -> Prop) l1 l2 x y :
  StronglySorted R (l1 ++ l2) -> x ∈ l1 -> y ∈ l2 -> R x y.
Proof.
  induction l1 as [|a l1 IH]; simpl; intros Hs Hx Hy.
  - now apply elem_of_nil in Hx.
  - apply StronglySorted_inv in Hs as [Hs Hall].
    apply elem_of_cons in Hx as [->|Hx]; [|auto].
    rewrite Forall_forall in Hall. apply Hall. apply elem_of_app. now right.
Qed.

Lemma top10_sorted d :
  StronglySorted count_ge (Py.sort (fun x y => snd y <=? snd x) d).
Proof.
  eapply strongly_sorted_impl;
    [| apply (sort_sorted (fun x y : string * Z => snd y <=? snd x)) ].
  - intros x y H. unfold count_ge. now apply Z.leb_le in H.
  - intros x y. rewrite !Z.leb_le. lia.
  - intros x y z. rewrite !Z.leb_le. lia.
Qed.

Lemma top10_spec d :
  (length (top10 d) <= 10)%nat
  /\ StronglySorted count_ge (top10 d)
  /\ top10 d ⊆ d
  /\ (NoDup d.*1 -> NoDup (top10 d).*1)
  /\ (forall x y, x ∈ d -> x ∉ top10 d -> y ∈ top10 d -> count_ge y x)
  /\ ((length d <= 10)%nat -> top10 d ≡ₚ d).
Proof.
  rewrite top10_take.
  set (sorted := Py.sort (fun x y => snd y <=? snd x) d).
  assert (Hperm : sorted ≡ₚ d) by apply sort_perm.
  assert (Hsorted : StronglySorted count_ge sorted) by apply top10_sorted.
  split; [rewrite length_take; lia|].
  split; [eapply strongly_sorted_sublist; [apply sublist_take|done]|].
  split.
  { intros x Hx. rewrite <- Hperm. eapply elem_of_sublist; [exact Hx|].
    apply sublist_take. }
  split.
  { intros Hnd. rewrite <- Hperm in Hnd.
    refine (sublist_NoDup _ _ Hnd _). apply fmap_sublist, sublist_take. }
  split.
  { intros x y Hx Hnot Hy.
    rewrite <- (take_drop 10 sorted) in Hsorted, Hperm.
    rewrite <- Hperm in Hx. apply elem_of_app in Hx as [Hx|Hx]; [done|].
    unfold count_ge.
    apply (strongly_sorted_app_order count_ge _ _ y x Hsorted Hy Hx). }
  intros Hlen. rewrite take_ge; [done|]. now rewrite Hperm.
Qed.

End DictFacts.

Section StatsTheorems.

Variable fromisoformat : string -> option Datetime.datetime.
Variable now : Z.

Lemma occurrences_nonempty keys c :
  c <> "" ->
  occurrences (filter (fun x => x <> "") keys) c = occurrences keys c.
Proof.
  intros Hc. unfold occurrences. f_equal. f_equal.
  induction keys as [|x keys IH]; [done|].
  rewrite !filter_cons. destruct (decide (x <> "")) as [Hx|Hx].
  - rewrite filter_cons. destruct (decide (x = c)); now rewrite IH.
  - destruct (decide (x = c)) as [->|]; [exfalso; apply Hx, Hc|]. exact IH.
Qed.

Lemma total_count_perm d1 d2 : d1 ≡ₚ d2 -> total_count d1 = total_count d2.
Proof.
  unfold total_count. induction 1; simpl; lia.
Qed.

(** An entry of the top agencies carries the number of opportunities of
    that agency, a record without full_parent_path_name counting under
    'Unknown'; the count is positive and no agency is listed twice. *)
Theorem top_agencies_counts opps a n :
  (a, n) ∈ top_agencies (get_stats fromisoformat now opps) ->
  n = occurrences (agency_of <$> opps) a
  /\ 0 < n
  /\ NoDup (top_agencies (get_stats fromisoformat now opps)).*1.
Proof.
  simpl. rewrite count_agencies_fold.
  destruct (count_keys_spec (agency_of <$> opps)) as (Hnd & Hget & Hkeys & _).
  set (d := fold_left dict_incr (agency_of <$> opps) []) in *.
  destruct (top10_spec d) as (_ & _ & Hsub & Hnd' & _).
  intros Hin. apply Hsub in Hin.
  assert (Hn : n = occurrences (agency_of <$> opps) a).
  { rewrite <- Hget. symmetry. now apply dict_get_elem. }
  split; [exact Hn|]. split; [|auto].
  rewrite Hn. apply occurrences_pos. apply Hkeys.
  apply list_elem_of_fmap. now exists (a, n).
Qed.

(** An entry of the top NAICS codes carries the number of opportunities
    with that code, a record without naics_code counting under 'Unknown';
    the empty code is never listed. *)
Theorem top_naics_counts opps c n :
  (c, n) ∈ top_naics (get_stats fromisoformat now opps) ->
  c <> ""
  /\ n = occurrences (naics_of <$> opps) c
  /\ 0 < n.
Proof.
  simpl. rewrite count_naics_fold.
  set (keys := filter (fun x => x <> "") (naics_of <$> opps)).
  destruct (count_keys_spec keys) as (Hnd & Hget & Hkeys & _).
  set (d := fold_left dict_incr keys []) in *.
  destruct (top10_spec d) as (_ & _ & Hsub & _).
  intros Hin. apply Hsub in Hin.
  assert (Hk : c ∈ keys).
  { apply Hkeys. apply list_elem_of_fmap. now exists (c, n). }
  assert (Hc : c <> "").
  { unfold keys in Hk. now apply list_elem_of_filter in Hk as [Hc _]. }
  assert (Hn : n = occurrences keys c).
  { rewrite <- Hget. symmetry. now apply dict_get_elem. }
  split; [exact Hc|]. split.
  - rewrite Hn. now apply occurrences_nonempty.
  - rewrite Hn. now apply occurrences_pos.
Qed.

(** The top agencies are at most ten, in order of non-increasing count, and
    they are the largest: an agency that is left out has no more
    opportunities than any agency listed.  With at most ten agencies in
    the store all are listed, and their counts add up to the total. *)
Theorem top_agencies_ranked opps :
  let st := get_stats fromisoformat now opps in
  (length (top_agencies st) <= 10)%nat
  /\ StronglySorted count_ge (top_agencies st)
  /\ (forall a b m,
        a ∈ agency_of <$> opps ->
        a ∉ (top_agencies st).*1 ->
        (b, m) ∈ top_agencies st ->
        occurrences (agency_of <$> opps) a <= m)
  /\ ((length (top_agencies st) < 10)%nat ->
      total_count (top_agencies st) = total_opportunities st).
Proof.
  simpl. rewrite count_agencies_fold.
  destruct (count_keys_spec (agency_of <$> opps))
    as (Hnd & Hget & Hkeys & Htotal).
  set (d := fold_left dict_incr (agency_of <$> opps) []) in *.
  destruct (top10_spec d) as (Hlen & Hsorted & Hsub & _ & Htop & Hall).
  split; [exact Hlen|]. split; [exact Hsorted|]. split.
  - intros a b m Ha Hnot Hb.
    apply Hkeys in Ha. apply list_elem_of_fmap in Ha as ([a' n] & -> & Hin).
    simpl in *. rewrite <- Hget, (dict_get_elem d a' n Hnd Hin).
    apply (Htop (a', n) (b, m) Hin); [|exact Hb].
    intros Hin'. apply Hnot. apply list_elem_of_fmap. now exists (a', n).
  - intros Hfew. rewrite length_fmap in Htotal. rewrite <- Htotal.
    apply total_count_perm, Hall.
    rewrite top10_take, length_take in Hfew.
    rewrite length_sort in Hfew. lia.
Qed.

Lemma count_recent_bounds opps :
  0 <= count_recent fromisoformat now opps <= Z.of_nat (length opps).
Proof.
  unfold count_recent. cbv zeta.
  assert (H : forall r0,
    r0 <= fold_left
            (fun recent_opportunities opp =>
               if Py.truthy (get opp "posted_date") then
                 match fromisoformat
                         (Py.replace_Z "+00:00" (get opp "posted_date")) with
                 | Some opp_date =>
                     match datetime_ge opp_date
                             (Datetime.naive (now - 7 * Datetime.us_per_day))
                     with
                     | Some true => recent_opportunities + 1
                     | Some false => recent_opportunities
                     | None => recent_opportunities
                     end
                 | None => recent_opportunities
                 end
               else recent_opportunities) opps r0
       <= r0 + Z.of_nat (length opps)).
  { induction opps as [|o opps IH]; intros r0; simpl; [lia|].
    repeat match goal with
           | |- context [fold_left _ _ (if ?b then _ else _)] => destruct b
           | |- context [fold_left _ _ (match ?x with _ => _ end)] =>
               destruct x
           end;
      match goal with
      | |- context [fold_left _ _ ?r] => specialize (IH r); lia
      end. }
  specialize (H 0). lia.
Qed.

(** The counts of the statistics stay within the total: the active and the
    recent opportunities are each between 0 and the number of
    opportunities. *)
Theorem stats_counts_bounded opps :
  let st := get_stats fromisoformat now opps in
  total_opportunities st = Z.of_nat (length opps)
  /\ 0 <= active_opportunities st <= total_opportunities st
  /\ 0 <= recent_opportunities st <= total_opportunities st.
Proof.
  simpl. split; [done|]. split; [|apply count_recent_bounds].
  split; [lia|]. apply inj_le, List.filter_length_le.
Qed.


End StatsTheorems.

(** * Further properties of the extraction *)

Section ContextFacts.

Variable lower_cp : N -> list N.

Lemma lstrip_suffix l : exists p, l = p ++ Text.lstrip l.
Proof.
  induction l as [|c l [p IH]]; simpl; [now exists []|].
  destruct (Text.isspace c).
  - exists (c :: p). simpl. now f_equal.
  - now exists [].
Qed.

Lemma lstrip_app_nonspace A c M :
  Text.isspace c = false ->
  Text.lstrip (A ++ c :: M) = Text.lstrip A ++ c :: M.
Proof.
  intros Hc. induction A as [|a A IH]; simpl; [now rewrite Hc|].
  destruct (Text.isspace a); [exact IH | done].
Qed.

(** Stripping keeps a run of non-space characters and what lies between
    its ends. *)
Lemma strip_keeps A M B :
  M <> [] -> Forall (fun c => Text.isspace c = false) M ->
  Text.strip (A ++ M ++ B)
  = Text.lstrip A ++ M ++ rev (Text.lstrip (rev B)).
Proof.
  intros Hne Hall. unfold Text.strip.
  destruct M as [|c M]; [done|].
  pose proof Hall as Hall'. apply Forall_cons in Hall as [Hc Hall].
  change (A ++ (c :: M) ++ B) with (A ++ c :: (M ++ B)).
  rewrite (lstrip_app_nonspace A c (M ++ B) Hc).
  change (Text.lstrip A ++ c :: M ++ B)
    with (Text.lstrip A ++ (c :: M) ++ B).
  destruct (rev (c :: M)) as [|e E] eqn:Erev.
  { apply (f_equal length) in Erev. rewrite length_rev in Erev. discriminate. }
  assert (He : Text.isspace e = false).
  { assert (Hin : e ∈ rev (c :: M)) by (rewrite Erev; apply list_elem_of_here).
    apply list_elem_of_In, in_rev, list_elem_of_In in Hin.
    rewrite Forall_forall in Hall'. now apply Hall'. }
  rewrite !rev_app_distr, Erev.
  rewrite <- app_assoc.
  change ((e :: E) ++ rev (Text.lstrip A))
    with (e :: (E ++ rev (Text.lstrip A))).
  rewrite (lstrip_app_nonspace (rev B) e (E ++ rev (Text.lstrip A)) He).
  change (e :: E ++ rev (Text.lstrip A))
    with ((e :: E) ++ rev (Text.lstrip A)).
  rewrite !rev_app_distr, rev_involutive, <- Erev, rev_involutive.
  now rewrite <- app_assoc.
Qed.

(** The window around a match: up to [before] characters, the text that
    matched, up to [after] characters. *)
Lemma window_decompose (before after : nat) description keyword i :
  keeps_length lower_cp description ->
  matches_at lower_cp keyword description i ->
  exists P A M B Q,
    description = P ++ A ++ M ++ B ++ Q
    /\ window before after description keyword i = A ++ M ++ B
    /\ Text.lower lower_cp M = keyword
    /\ keeps_length lower_cp M
    /\ (length A <= before)%nat
    /\ (length B <= after)%nat.
Proof.
  intros Hk (pre & M & post & Hd & Hi & HM).
  assert (HkM : keeps_length lower_cp M).
  { rewrite Hd in Hk. apply Forall_app in Hk as [_ Hk].
    now apply Forall_app in Hk as [Hk _]. }
  assert (HlM : length M = length keyword).
  { rewrite <- HM. now rewrite length_lower_keeps. }
  unfold window. rewrite Hd.
  set (lo := (i - before)%nat).
  exists (take lo pre), (drop lo pre), M, (take after post),
    (drop after post).
  split; [|split; [|split; [done|split; [done|split]]]].
  - rewrite (app_assoc (take lo pre)), take_drop.
    f_equal. f_equal. now rewrite take_drop.
  - rewrite !length_app.
    rewrite drop_app.
    replace (lo - length pre)%nat with 0%nat by lia. rewrite drop_0.
    rewrite take_app, (take_ge (drop lo pre)) by (rewrite length_drop; lia).
    f_equal. rewrite length_drop, take_app, (take_ge M) by lia.
    f_equal. destruct (Nat.le_gt_cases after (length post)).
    + f_equal. lia.
    + rewrite !take_ge by lia. done.
  - rewrite length_drop. lia.
  - rewrite length_take. lia.
Qed.

Lemma lower_elem x y M :
  x ∈ M -> y ∈ lower_cp x -> y ∈ Text.lower lower_cp M.
Proof.
  induction M as [|c M IH]; intros Hx Hy; [now apply elem_of_nil in Hx|].
  rewrite lower_cons. apply elem_of_app.
  apply elem_of_cons in Hx as [->|Hx]; [now left | right; now apply IH].
Qed.

End ContextFacts.

Section ExtractionExtras.

Variable lower_cp : N -> list N.

(** Lowering leaves the white space as it is. *)
Hypothesis lower_space :
  forall c, Text.isspace c = true -> lower_cp c = [c].

Lemma keywords_nonspace_ok (keywords : list Text.text) :
  forallb (fun k => forallb (fun c => negb (Text.isspace c)) k) keywords
  = true ->
  Forall (fun k => Forall (fun c => Text.isspace c = false) k) keywords.
Proof.
  intros H. rewrite forallb_forall in H. apply Forall_forall. intros k Hk.
  apply list_elem_of_In in Hk. specialize (H k Hk).
  rewrite forallb_forall in H. apply Forall_forall. intros c Hc.
  apply list_elem_of_In in Hc. specialize (H c Hc).
  now apply negb_true_iff in H.
Qed.

(** The context cut for a keyword holds the text that matched it, comes
    from the description, and is no longer than the two windows and the
    keyword. *)
Lemma contribution_contains (before after : nat) description keyword c :
  keeps_length lower_cp description ->
  keyword <> [] ->
  Forall (fun c => Text.isspace c = false) keyword ->
  contribution lower_cp before after description keyword [c] ->
  ci_contains lower_cp keyword c
  /\ (exists i, stands_at c description i)
  /\ Text.len c
     <= Z.of_nat before + Text.len keyword + Z.of_nat after.
Proof.
  intros Hk Hne Hns [[_ Hnil]|(i & [Hocc _] & Hc)]; [discriminate|].
  injection Hc as ->.
  destruct (window_decompose lower_cp before after description keyword i
              Hk Hocc)
    as (P & A & M & B & Q & Hd & Hw & HM & HkM & HA & HB).
  assert (HMne : M <> []).
  { intros ->. now apply Hne. }
  assert (HMns : Forall (fun c => Text.isspace c = false) M).
  { apply Forall_forall. intros x Hx.
    destruct (Text.isspace x) eqn:Ex; [|done].
    assert (Hin : x ∈ keyword).
    { rewrite <- HM. apply (lower_elem lower_cp x x M Hx).
      rewrite (lower_space x Ex). apply list_elem_of_here. }
    rewrite Forall_forall in Hns. rewrite (Hns x Hin) in Ex. discriminate. }
  assert (Hstrip :
    Text.strip (window before after description keyword i)
    = Text.lstrip A ++ M ++ rev (Text.lstrip (rev B))).
  { rewrite Hw. now apply strip_keeps. }
  destruct (lstrip_suffix A) as [p Hp].
  destruct (lstrip_suffix (rev B)) as [q Hq].
  assert (HB' : B = rev (Text.lstrip (rev B)) ++ rev q).
  { rewrite <- (rev_involutive B) at 1. rewrite Hq at 1.
    now rewrite rev_app_distr. }
  rewrite Hstrip. split; [|split].
  - exists (length (Text.lstrip A)), (Text.lstrip A), M,
      (rev (Text.lstrip (rev B))). done.
  - exists (length (P ++ p)), (P ++ p), (rev q ++ Q). split; [|done].
    rewrite Hd. rewrite Hp at 1. rewrite HB' at 1.
    now rewrite <- !app_assoc.
  - unfold Text.len. rewrite !length_app.
    assert (length (Text.lstrip A) <= length A)%nat.
    { rewrite Hp at 2. rewrite length_app. lia. }
    assert (length (rev (Text.lstrip (rev B))) <= length B)%nat.
    { rewrite HB' at 2. rewrite length_app. lia. }
    assert (length M = length keyword).
    { rewrite <- HM. now rewrite length_lower_keeps. }
    lia.
Qed.

Lemma contributions_member (before after : nat) description keywords per c :
  Forall2 (contribution lower_cp before after description) keywords per ->
  c ∈ concat per ->
  exists k,
    k ∈ keywords /\ contribution lower_cp before after description k [c].
Proof.
  induction 1 as [|k p ks ps Hk _ IH]; simpl; intros Hc.
  - now apply elem_of_nil in Hc.
  - apply elem_of_app in Hc as [Hc|Hc].
    + exists k. split; [apply list_elem_of_here|].
      destruct Hk as [[_ ->]|(i & Hi & ->)]; [now apply elem_of_nil in Hc|].
      apply list_elem_of_singleton in Hc as ->. right. now exists i.
    + destruct (IH Hc) as (k' & Hin & Hk'). exists k'.
      split; [now apply list_elem_of_further|done].
Qed.

Lemma contributions_empty (before after : nat) description keywords per :
  Forall2 (contribution lower_cp before after description) keywords per ->
  (concat per = []
   <-> forall k, k ∈ keywords -> ~ ci_contains lower_cp k description).
Proof.
  induction 1 as [|k p ks ps Hk _ IH]; simpl.
  - split; [|done]. intros _ k Hk. now apply elem_of_nil in Hk.
  - split.
    + intros Hnil. apply app_eq_nil in Hnil as [-> Hps].
      intros k' Hin. apply elem_of_cons in Hin as [->|Hin].
      * destruct Hk as [[Habs _]|(i & _ & Hc)]; [done|discriminate].
      * now apply IH.
    + intros Hall.
      destruct Hk as [[_ ->]|(i & [Hocc _] & _)].
      * simpl. apply IH. intros k' Hin. apply Hall.
        now apply list_elem_of_further.
      * exfalso. apply (Hall k); [apply list_elem_of_here|]. now exists i.
Qed.

Lemma extraction_member keywords (before after cap : nat) description c :
  Forall (fun k => k <> []) keywords ->
  Forall (fun k => Forall (fun c => Text.isspace c = false) k) keywords ->
  keeps_length lower_cp description ->
  c ∈ extract_contexts lower_cp keywords (Z.of_nat before) (Z.of_nat after)
        (Z.of_nat cap) description ->
  exists k,
    k ∈ keywords
    /\ ci_contains lower_cp k c
    /\ (exists i, stands_at c description i)
    /\ Text.len c <= Z.of_nat before + Text.len k + Z.of_nat after.
Proof.
  intros Hne Hns Hk Hc.
  destruct (extract_contexts_spec lower_cp keywords before after cap
              description Hne Hk) as ((per & Hper & Hres) & _ & _).
  rewrite Hres in Hc.
  eapply elem_of_sublist in Hc; [|apply sublist_take].
  destruct (contributions_member _ _ _ _ _ _ Hper Hc) as (k & Hin & Hcontrib).
  exists k. split; [done|].
  rewrite Forall_forall in Hne, Hns.
  apply contribution_contains; [done|now apply Hne|now apply Hns|done].
Qed.

Lemma extraction_empty keywords (before after cap : nat) description :
  (0 < cap)%nat ->
  Forall (fun k => k <> []) keywords ->
  keeps_length lower_cp description ->
  (extract_contexts lower_cp keywords (Z.of_nat before) (Z.of_nat after)
     (Z.of_nat cap) description = []
   <-> forall k, k ∈ keywords -> ~ ci_contains lower_cp k description).
Proof.
  intros Hcap Hne Hk.
  destruct (extract_contexts_spec lower_cp keywords before after cap
              description Hne Hk) as ((per & Hper & Hres) & _ & _).
  rewrite Hres, <- (contributions_empty _ _ _ _ _ Hper). split.
  - intros Hnil. apply take_nil_inv in Hnil as [?|?]; [lia|done].
  - intros ->. apply take_nil.
Qed.

(** On a description that lowering keeps character for character, every
    context of an extraction holds one of the keywords, without regard to
    case, is itself a piece of the description, and has at most the
    keyword's length plus 100 characters (deliverables) or plus 200
    (proposal requirements). *)
Theorem contexts_contain_a_keyword description c :
  keeps_length lower_cp description ->
  (c ∈ extract_deliverables_from_description lower_cp description ->
   exists k,
     k ∈ deliverable_keywords
     /\ ci_contains lower_cp k c
     /\ (exists i, stands_at c description i)
     /\ Text.len c <= 50 + Text.len k + 50)
  /\ (c ∈ extract_proposal_requirements_from_description lower_cp description ->
      exists k,
        k ∈ requirement_keywords
        /\ ci_contains lower_cp k c
        /\ (exists i, stands_at c description i)
        /\ Text.len c <= 100 + Text.len k + 100).
Proof.
  intros Hk. split; intros Hc.
  - apply (extraction_member deliverable_keywords 50 50 10 description c);
      [apply deliverable_keywords_nonempty| |exact Hk|exact Hc].
    apply keywords_nonspace_ok. vm_compute. reflexivity.
  - apply (extraction_member requirement_keywords 100 100 15 description c);
      [apply requirement_keywords_nonempty| |exact Hk|exact Hc].
    apply keywords_nonspace_ok. vm_compute. reflexivity.
Qed.

End ExtractionExtras.

Lemma basic_fixes_spaces c :
  Text.isspace c = true -> Text.lower_cp_basic c = [c].
Proof.
  unfold Text.isspace, Text.lower_cp_basic. intros H.
  destruct (N.eqb_spec c 0x130) as [->|_]; [discriminate|].
  match goal with
  | |- (if ?b then _ else _) = _ => destruct b eqn:E; [|done]
  end.
  exfalso.
  repeat match goal with
         | H : _ || _ = true |- _ => apply orb_true_iff in H as [H|H]
         end;
    repeat match goal with
           | H : _ && _ = true |- _ => apply andb_true_iff in H as [? ?]
           end;
    repeat match goal with
           | H : (_ <=? _)%N = true |- _ => apply N.leb_le in H
           | H : (_ =? _)%N = true |- _ => apply N.eqb_eq in H
           end; lia.
Qed.

Lemma contexts_contain_a_keyword_witness :
  (ships ∈
     extract_deliverables_from_description Text.lower_cp_basic
       (Text.of_str "  All Deliverables ship.  ") ->
   exists k,
     k ∈ deliverable_keywords
     /\ ci_contains Text.lower_cp_basic k ships
     /\ (exists i, stands_at ships (Text.of_str "  All Deliverables ship.  ") i)
     /\ Text.len ships <= 50 + Text.len k + 50)
  /\ (ships ∈
        extract_proposal_requirements_from_description Text.lower_cp_basic
          (Text.of_str "  All Deliverables ship.  ") ->
      exists k,
        k ∈ requirement_keywords
        /\ ci_contains Text.lower_cp_basic k ships
        /\ (exists i,
              stands_at ships (Text.of_str "  All Deliverables ship.  ") i)
        /\ Text.len ships <= 100 + Text.len k + 100).
Proof.
  apply (contexts_contain_a_keyword Text.lower_cp_basic basic_fixes_spaces
           (Text.of_str "  All Deliverables ship.  ") ships).
  apply keeps_length_basic. vm_compute. reflexivity.
Defined.

(** On a description that lowering keeps character for character, an
    extraction is empty exactly when none of its keywords occurs in the
    description, without regard to case. *)
Theorem extraction_empty_iff_no_keyword lower_cp description :
  keeps_length lower_cp description ->
  (extract_deliverables_from_description lower_cp description = []
   <-> forall k,
         k ∈ deliverable_keywords -> ~ ci_contains lower_cp k description)
  /\ (extract_proposal_requirements_from_description lower_cp description = []
      <-> forall k,
            k ∈ requirement_keywords ->
            ~ ci_contains lower_cp k description).
Proof.
  intros Hk. split.
  - apply (extraction_empty lower_cp deliverable_keywords 50 50 10); [lia| |done].
    apply deliverable_keywords_nonempty.
  - apply (extraction_empty lower_cp requirement_keywords 100 100 15);
      [lia| |done].
    apply requirement_keywords_nonempty.
Qed.

Lemma extraction_empty_iff_no_keyword_witness :
  (extract_deliverables_from_description Text.lower_cp_basic ships = []
   <-> forall k,
         k ∈ deliverable_keywords ->
         ~ ci_contains Text.lower_cp_basic k ships)
  /\ (extract_proposal_requirements_from_description Text.lower_cp_basic
        ships = []
      <-> forall k,
            k ∈ requirement_keywords ->
            ~ ci_contains Text.lower_cp_basic k ships).
Proof.
  apply (extraction_empty_iff_no_keyword Text.lower_cp_basic ships).
  apply keeps_length_basic. vm_compute. reflexivity.
Defined.

(** * Email requests and passwords *)

Section SplitFacts.

Lemma split_chars_nonempty sep l : split_chars sep l <> [].
Proof.
  destruct l as [|c t]; simpl; [done|].
  destruct (Ascii.eqb c sep); [done|]. now destruct (split_chars sep t).
Qed.

Lemma split_chars_nosep sep l : sep ∉ l -> split_chars sep l = [l].
Proof.
  induction l as [|c t IH]; simpl; intros Hn; [done|].
  apply not_elem_of_cons in Hn as [Hc Ht].
  destruct (Ascii.eqb_spec c sep); [congruence|]. now rewrite (IH Ht).
Qed.

Lemma split_chars_app sep a b :
  sep ∉ a -> split_chars sep (a ++ sep :: b) = a :: split_chars sep b.
Proof.
  induction a as [|c t IH]; simpl; intros Hn.
  - now rewrite Ascii.eqb_refl.
  - apply not_elem_of_cons in Hn as [Hc Ht].
    destruct (Ascii.eqb_spec c sep); [congruence|]. now rewrite (IH Ht).
Qed.

Lemma split_chars_head sep l :
  exists h t,
    split_chars sep l = h :: t
    /\ (sep ∉ h)
    /\ (l = h \/ exists rest, l = h ++ sep :: rest).
Proof.
  induction l as [|c l (h & t & Hs & Hn & Hl)]; simpl.
  - exists [], []. repeat split; [apply not_elem_of_nil | now left].
  - destruct (Ascii.eqb_spec c sep) as [->|Hne].
    + exists [], (split_chars sep l).
      repeat split; [apply not_elem_of_nil|]. right. now exists l.
    + rewrite Hs. exists (c :: h), t. repeat split.
      * apply not_elem_of_cons. split; [congruence|done].
      * destruct Hl as [->|[rest ->]]; [now left|]. right. now exists rest.
Qed.

Lemma split_chars_one sep l b :
  split_chars sep l = [b] -> l = b /\ (sep ∉ b).
Proof.
  revert b. induction l as [|c t IH]; simpl; intros b H.
  - injection H as <-. split; [done|apply not_elem_of_nil].
  - destruct (Ascii.eqb_spec c sep) as [->|Hne].
    + injection H as _ H. now apply split_chars_nonempty in H.
    + destruct (split_chars sep t) as [|p ps] eqn:E;
        [now apply split_chars_nonempty in E|].
      injection H as <- ->. destruct (IH p eq_refl) as [-> Hn].
      split; [done|]. apply not_elem_of_cons. split; [congruence|done].
Qed.

Lemma split_chars_two sep l a b :
  split_chars sep l = [a; b] ->
  l = a ++ sep :: b /\ (sep ∉ a) /\ (sep ∉ b).
Proof.
  revert a. induction l as [|c t IH]; simpl; intros a H; [discriminate|].
  destruct (Ascii.eqb_spec c sep) as [->|Hne].
  - injection H as <- H. apply split_chars_one in H as [-> Hn].
    repeat split; [apply not_elem_of_nil | done].
  - destruct (split_chars sep t) as [|p ps] eqn:E;
      [now apply split_chars_nonempty in E|].
    injection H as <- ->. destruct (IH p eq_refl) as (-> & Ha & Hb).
    repeat split; [|done]. apply not_elem_of_cons. split; [congruence|done].
Qed.

End SplitFacts.

(** A request without notice ids or without an address is refused; else
    the queued request carries the address, the notice ids and, as its
    user id, the part of the address ahead of the first [@] (the whole
    address when it has none), which holds no [@]. *)
Theorem email_request_user_id data :
  (email_data_of data = None
   <-> rq_notice_ids data = [] \/ rq_user_email data = "")
  /\ forall ed,
       email_data_of data = Some ed ->
       (("@"%char) ∉ Py.chars (ed_user_id ed))
       /\ (rq_user_email data = ed_user_id ed
           \/ exists rest,
                rq_user_email data = ed_user_id ed +:+ "@" +:+ rest)
       /\ ed_from_email ed = rq_user_email data
       /\ ed_notice_ids ed = rq_notice_ids data
       /\ ed_request_type ed = rq_request_type data.
Proof.
  unfold email_data_of. split.
  - destruct (rq_notice_ids data) as [|n ns]; simpl.
    + split; auto.
    + destruct (rq_user_email data) as [|c s]; simpl.
      * split; auto.
      * split; [discriminate|]. intros [?|?]; discriminate.
  - intros ed. destruct (_ || _); [discriminate|]. intros [= <-]. simpl.
    unfold py_split.
    destruct (split_chars_head "@" (Py.chars (rq_user_email data)))
      as (h & t & Hs & Hn & Hl).
    rewrite Hs. simpl. rewrite chars_str. repeat split; [done|].
    destruct Hl as [Hl|[rest Hl]].
    + left. rewrite <- Hl. now rewrite str_chars.
    + right. exists (Py.str rest). apply chars_inj.
      rewrite !chars_app, !chars_str. exact Hl.
Qed.

Lemma email_request_user_id_witness :
  (email_data_of
     {| rq_notice_ids := ["DEMO001"]; rq_request_type := "evaluate";
        rq_user_email := "jane.doe@gsa.gov" |} = None
   <-> ["DEMO001"] = [] \/ "jane.doe@gsa.gov" = "")
  /\ forall ed,
       email_data_of
         {| rq_notice_ids := ["DEMO001"]; rq_request_type := "evaluate";
            rq_user_email := "jane.doe@gsa.gov" |} = Some ed ->
       (("@"%char) ∉ Py.chars (ed_user_id ed))
       /\ ("jane.doe@gsa.gov" = ed_user_id ed
           \/ exists rest, "jane.doe@gsa.gov" = ed_user_id ed +:+ "@" +:+ rest)
       /\ ed_from_email ed = "jane.doe@gsa.gov"
       /\ ed_notice_ids ed = ["DEMO001"]
       /\ ed_request_type ed = "evaluate".
Proof.
  apply (email_request_user_id
           {| rq_notice_ids := ["DEMO001"]; rq_request_type := "evaluate";
              rq_user_email := "jane.doe@gsa.gov" |}).
Defined.

Section PasswordTheorems.

Variable sha256_hexdigest : string -> string.

Lemma split_stored salt digest :
  (":"%char) ∉ Py.chars salt -> (":"%char) ∉ Py.chars digest ->
  py_split ":" (salt +:+ ":" +:+ digest) = [salt; digest].
Proof.
  intros Hs Hd. unfold py_split. rewrite !chars_app.
  change (Py.chars ":") with [":"%char]. simpl app.
  rewrite (split_chars_app ":" _ _ Hs), (split_chars_nosep ":" _ Hd).
  simpl. now rewrite !str_chars.
Qed.

(** A stored hash verifies the password it was made from, and another
    password exactly when its salted digest is the same; this for a salt
    and digests without colon, as hexadecimal strings are. *)
Theorem stored_hash_verifies salt password candidate :
  (":"%char) ∉ Py.chars salt ->
  (":"%char) ∉ Py.chars (sha256_hexdigest (password +:+ salt)) ->
  verify_password sha256_hexdigest password
    (hash_password sha256_hexdigest salt password) = true
  /\ verify_password sha256_hexdigest candidate
       (hash_password sha256_hexdigest salt password)
     = String.eqb (sha256_hexdigest (candidate +:+ salt))
         (sha256_hexdigest (password +:+ salt)).
Proof.
  intros Hs Hd. unfold verify_password, hash_password.
  rewrite (split_stored salt _ Hs Hd). split; [apply String.eqb_refl|done].
Qed.

(** Verification never raises: it accepts only a stored value of the shape
    salt, one colon, digest, where the digest is that of the password
    followed by the salt; a stored value with no colon or with several is
    refused. *)
Theorem verify_accepts_only_salted_digest password stored_hash :
  verify_password sha256_hexdigest password stored_hash = true ->
  exists salt digest,
    stored_hash = salt +:+ ":" +:+ digest
    /\ ((":"%char) ∉ Py.chars salt)
    /\ ((":"%char) ∉ Py.chars digest)
    /\ sha256_hexdigest (password +:+ salt) = digest.
Proof.
  unfold verify_password, py_split.
  destruct (split_chars ":" (Py.chars stored_hash)) as [|a [|b [|c rest]]]
    eqn:E; simpl; try discriminate.
  intros Heq. apply String.eqb_eq in Heq.
  apply split_chars_two in E as (Hl & Ha & Hb).
  exists (Py.str a), (Py.str b). rewrite !chars_str. repeat split; try done.
  apply chars_inj. rewrite !chars_app, !chars_str. exact Hl.
Qed.

End PasswordTheorems.

Lemma stored_hash_verifies_witness :
  verify_password Py.lower "secret" (hash_password Py.lower "a1b2" "secret")
  = true
  /\ verify_password Py.lower "Secret"
       (hash_password Py.lower "a1b2" "secret")
     = String.eqb (Py.lower ("Secret" +:+ "a1b2"))
         (Py.lower ("secret" +:+ "a1b2")).
Proof.
  apply (stored_hash_verifies Py.lower "a1b2" "secret" "Secret").
  - vm_compute. intros H.
    repeat (apply elem_of_cons in H as [H|H]; [discriminate|]).
    now apply elem_of_nil in H.
  - vm_compute. intros H.
    repeat (apply elem_of_cons in H as [H|H]; [discriminate|]).
    now apply elem_of_nil in H.
Defined.

Lemma verify_accepts_only_salted_digest_witness :
  exists salt digest,
    "a1b2:secreta1b2" = salt +:+ ":" +:+ digest
    /\ ((":"%char) ∉ Py.chars salt)
    /\ ((":"%char) ∉ Py.chars digest)
    /\ Py.lower ("secret" +:+ salt) = digest.
Proof.
  apply (verify_accepts_only_salted_digest Py.lower "secret" "a1b2:secreta1b2").
  vm_compute. reflexivity.
Defined.

(** * The mock store *)

(** When every mock record has a notice_id and no two share one, looking
    up the notice_id of a mock record gives that record back, and looking
    up any other id gives nothing. *)
Theorem mock_lookup_round_trip mock :
  Forall (fun opp => is_Some (opp !! "notice_id")) mock ->
  NoDup ((fun opp => get opp "notice_id") <$> mock) ->
  (forall opp,
      opp ∈ mock ->
      mock_get_opportunity mock (get opp "notice_id") = Some (Some opp))
  /\ (forall notice_id,
        notice_id ∉ (fun opp => get opp "notice_id") <$> mock ->
        mock_get_opportunity mock notice_id = Some None).
Proof.
  induction mock as [|o mock IH]; intros Hall Hnd.
  - split; [intros opp H; now apply elem_of_nil in H | done].
  - apply Forall_cons in Hall as [[id Hid] Hall].
    rewrite fmap_cons in Hnd. apply NoDup_cons in Hnd as [Hnot Hnd].
    destruct (IH Hall Hnd) as [IH1 IH2]. simpl. rewrite Hid.
    assert (Hget : get o "notice_id" = id) by (unfold get; now rewrite Hid).
    rewrite Hget in Hnot. split.
    + intros opp Hin. apply elem_of_cons in Hin as [->|Hin].
      * rewrite Hget. now rewrite String.eqb_refl.
      * destruct (String.eqb_spec id (get opp "notice_id")) as [He|_];
          [|now apply IH1].
        exfalso. apply Hnot. rewrite He. apply list_elem_of_fmap.
        now exists opp.
    + intros nid Hn. simpl in Hn. rewrite Hget in Hn.
      apply not_elem_of_cons in Hn as [Hne Hn].
      destruct (String.eqb_spec id nid); [congruence|]. now apply IH2.
Qed.

Lemma mock_lookup_round_trip_witness :
  (forall opp,
      opp ∈ MOCK_OPPORTUNITIES ->
      mock_get_opportunity MOCK_OPPORTUNITIES (get opp "notice_id")
      = Some (Some opp))
  /\ (forall notice_id,
        notice_id ∉ (fun opp => get opp "notice_id") <$> MOCK_OPPORTUNITIES ->
        mock_get_opportunity MOCK_OPPORTUNITIES notice_id = Some None).
Proof.
  apply (mock_lookup_round_trip MOCK_OPPORTUNITIES).
  - repeat constructor; vm_compute; eauto.
  - vm_compute. repeat constructor.
    + intros H. apply elem_of_cons in H as [H|H]; [discriminate|].
      now apply elem_of_nil in H.
    + intros H. now apply elem_of_nil in H.
Defined.

(** * Further properties of the pushdown listing *)

Section LikeFacts.

Import Pushdown.








End LikeFacts.

Section PushdownExtras.

Import Pushdown.



Lemma sql_le_total a b : sql_le a b = true \/ sql_le b a = true.
Proof.
  destruct a as [x|], b as [y|]; simpl; auto. apply str_le_total.
Qed.

Lemma sql_le_trans a b c :
  sql_le a b = true -> sql_le b c = true -> sql_le a c = true.
Proof.
  destruct a as [x|], b as [y|], c as [z|]; simpl; try done.
  apply str_le_trans.
Qed.

Lemma order_by_sorted col desc rows :
  StronglySorted (sql_in_order col desc) (order_by col desc rows).
Proof.
  unfold order_by, sql_in_order. destruct desc.
  - apply (sort_sorted (fun x y => sql_le (y !! col) (x !! col))).
    + intros x y. destruct (sql_le_total (x !! col) (y !! col)); auto.
    + intros x y z Hxy Hyz. eapply sql_le_trans; eauto.
  - apply (sort_sorted (fun x y => sql_le (x !! col) (y !! col))).
    + intros x y. apply sql_le_total.
    + intros x y z. apply sql_le_trans.
Qed.

Lemma limit_offset_sublist limit offset rows :
  limit_offset limit offset rows `sublist_of` rows.
Proof.
  unfold limit_offset. destruct (limit <? 0).
  - apply sublist_drop.
  - etrans; [apply sublist_take | apply sublist_drop].
Qed.

Lemma elem_of_select (row : record) (cols : list string) k v :
  (k, v) ∈ omap (fun c => (fun v => (c, v)) <$> row !! c) cols
  <-> k ∈ cols /\ row !! k = Some v.
Proof.
  rewrite list_elem_of_omap. split.
  - intros (c & Hc & Hf). destruct (row !! c) as [w|] eqn:E; simpl in Hf;
      [|discriminate].
    injection Hf as <- <-. done.
  - intros [Hk Hv]. exists k. split; [done|]. now rewrite Hv.
Qed.

Lemma lookup_select (row : record) (cols : list string) col :
  (list_to_map (omap (fun c => (fun v => (c, v)) <$> row !! c) cols) : record)
    !! col
  = if decide (col ∈ cols) then row !! col else None.
Proof.
  assert (Hnone : row !! col = None \/ col ∉ cols ->
    (list_to_map (omap (fun c => (fun v => (c, v)) <$> row !! c) cols)
       : record) !! col = None).
  { intros Hcase. apply not_elem_of_list_to_map_1. intros Hin.
    apply list_elem_of_fmap in Hin as ([k v] & -> & Hin).
    apply elem_of_select in Hin as [Hk Hv]. simpl in *.
    destruct Hcase; [congruence|contradiction]. }
  destruct (decide (col ∈ cols)) as [Hin|Hin]; [|now apply Hnone; right].
  destruct (row !! col) as [v|] eqn:E; [|now apply Hnone; left].
  apply elem_of_list_to_map_1'.
  - intros y Hy. apply elem_of_select in Hy as [_ Hy]. congruence.
  - now apply elem_of_select.
Qed.

Lemma project_selects row : selects (project row) row.
Proof. intros col. apply lookup_select. Qed.

Lemma order_column_selected q : order_column q ∈ selected_columns.
Proof.
  unfold order_column.
  destruct (col_map !! order_col q) as [v|] eqn:E; simpl.
  - unfold col_map in E. apply elem_of_list_to_map_2 in E.
    repeat (apply elem_of_cons in E as [E|E];
            [injection E as _ ->; apply list_elem_of_In; simpl; tauto|]).
    now apply elem_of_nil in E.
  - apply list_elem_of_In; simpl; tauto.
Qed.

Lemma strongly_sorted_fmap {A B} (f : A -> B) (R : B -> B -> Prop) l :
  StronglySorted (fun x y => R (f x) (f y)) l -> StronglySorted R (f <$> l).
Proof.
  induction 1 as [|x l Hs IH Hall]; simpl; constructor; [done|].
  apply Forall_fmap. exact Hall.
Qed.


(** The rows of a pushdown answer are in order of the column that
    order_col names, posted_date when it names none: non-increasing when
    order_dir is desc in any letter case and non-decreasing otherwise, a
    NULL sorting below every text.  The column is among those the answer
    carries. *)
Theorem pushdown_rows_sorted q table :
  order_column q ∈ selected_columns
  /\ StronglySorted
       (sql_in_order (order_column q)
          (String.eqb (Py.lower (order_dir q)) "desc"))
       (data (list_opportunities q table)).
Proof.
  split; [apply order_column_selected|].
  unfold list_opportunities. cbv zeta.
  destruct (like_fails _ _); [constructor|].
  destruct (negb _); [constructor|]. simpl data.
  fold (order_column q). apply strongly_sorted_fmap.
  eapply strongly_sorted_impl with (R := sql_in_order (order_column q) _).
  - intros x y H. unfold sql_in_order in *.
    rewrite !(project_selects _ (order_column q)).
    destruct (decide (order_column q ∈ selected_columns)) as [_|Hn];
      [exact H | destruct (Hn (order_column_selected q))].
  - eapply strongly_sorted_sublist; [apply limit_offset_sublist|].
    apply order_by_sorted.
Qed.



(** Adjacent windows compose: the rows from start, n of them, followed by
    the rows from start + n, m of them, are the rows from start, n + m of
    them; so paging through the listing loses and repeats no row.  This
    for windows within the 64-bit integers. *)
Theorem pushdown_windows_compose q table s n m :
  0 <= s -> 0 <= n -> 0 <= m -> s + n + m < 2 ^ 63 ->
  data (list_opportunities (with_window q s n) table)
  ++ data (list_opportunities (with_window q (s + n) m) table)
  = data (list_opportunities (with_window q s (n + m)) table).
Proof.
  intros Hs Hn Hm Hmax. unfold list_opportunities, with_window. cbv zeta.
  simpl.
  destruct (like_fails _ _); [done|].
  assert (Hin : forall k, 0 <= k <= s + n + m -> sqlite_int k = true).
  { intros k Hk. unfold sqlite_int.
    apply andb_true_iff. split; [apply Z.leb_le|apply Z.ltb_lt]; lia. }
  rewrite !Hin by lia. simpl.
  set (sorted := order_by _ _ _). unfold limit_offset.
  destruct (Z.ltb_spec n 0); [lia|]. destruct (Z.ltb_spec m 0); [lia|].
  destruct (Z.ltb_spec (n + m) 0); [lia|].
  rewrite <- fmap_app. f_equal.
  rewrite !Z2Nat.inj_add by lia. rewrite <- drop_drop.
  apply take_take_drop.
Qed.

Lemma pushdown_windows_compose_witness :
  data (list_opportunities (with_window (push_search "services") 0 1)
          sample_table)
  ++ data (list_opportunities (with_window (push_search "services") (0 + 1) 2)
             sample_table)
  = data (list_opportunities (with_window (push_search "services") 0 (1 + 2))
            sample_table).
Proof.
  apply (pushdown_windows_compose (push_search "services") sample_table 0 1 2);
    lia.
Defined.

End PushdownExtras.

(** * Witnesses of the statistics *)

Lemma top_agencies_counts_witness :
  1 = occurrences (agency_of <$> MOCK_OPPORTUNITIES) "Department of Defense"
  /\ 0 < 1
  /\ NoDup
       (top_agencies
          (get_stats Datetime.fromisoformat_basic sample_now
             MOCK_OPPORTUNITIES)).*1.
Proof.
  apply (top_agencies_counts Datetime.fromisoformat_basic sample_now
           MOCK_OPPORTUNITIES "Department of Defense" 1).
  vm_compute. apply list_elem_of_here.
Defined.

Lemma top_naics_counts_witness :
  "236220" <> ""
  /\ 1 = occurrences (naics_of <$> MOCK_OPPORTUNITIES) "236220"
  /\ 0 < 1.
Proof.
  apply (top_naics_counts Datetime.fromisoformat_basic sample_now
           MOCK_OPPORTUNITIES "236220" 1).
  vm_compute. apply list_elem_of_further, list_elem_of_here.
Defined.

